(** * The receptionist of the semaphore restaurant

    A shallow embedding of [semSharedMemReceptionist.c]: the receptionist
    process of the "Restaurant" problem, synchronised with System V
    semaphores over a shared memory block.

    - C [int] values are integers of [Z]; [++] and [--] on a counter fault
      when they would leave the range of a 32-bit [int].
    - C arrays are lists read and written by index; an index outside the
      array faults (the C behaviour is undefined there).
    - [semDown], [semUp] and [saveState] are recorded, in program order, in
      a log of events.  The embedding follows the path on which the
      semaphore primitives succeed; on failure the C code calls [exit].
    - The constants of [probConst.h] and the array sizes of
      [probDataStruct.h] and [sharedDataSync.h] are parameters of the
      development. *)

From Stdlib Require Import ZArith Lia.
From stdpp Require Import base tactics option list numbers.

Local Open Scope Z_scope.

(** ** Faults and the result monad *)

Inductive fault : Type :=
| OutOfBounds
| Overflow.

Inductive result (A : Type) : Type :=
| Ok (a : A)
| Fault (f : fault).

Arguments Ok {A} a.
Arguments Fault {A} f.

#[global] Instance result_ret : MRet result := @Ok.

#[global] Instance result_bind : MBind result :=
  λ A B k m, match m with Ok a => k a | Fault f => Fault f end.

(** ** C integers and arrays *)

Definition INT_MAX : Z := 2147483647.
Definition INT_MIN : Z := -2147483648.

(** [x++] on an [int]. *)
Definition int_incr (x : Z) : result Z :=
  if decide (x < INT_MAX) then Ok (x + 1) else Fault Overflow.

(** [x--] on an [int]. *)
Definition int_decr (x : Z) : result Z :=
  if decide (INT_MIN < x) then Ok (x - 1) else Fault Overflow.

(** [x * y] on [int]s. *)
Definition int_mul (x y : Z) : result Z :=
  if decide (INT_MIN ≤ x * y ≤ INT_MAX) then Ok (x * y) else Fault Overflow.

(** [a[i]] as an rvalue. *)
Definition aget (a : list Z) (i : Z) : result Z :=
  if decide (0 ≤ i) then
    match a !! Z.to_nat i with
    | Some v => Ok v
    | None => Fault OutOfBounds
    end
  else Fault OutOfBounds.

(** [a[i] = v]. *)
Definition aset (a : list Z) (i v : Z) : result (list Z) :=
  if decide (0 ≤ i < Z.of_nat (length a)) then Ok (<[Z.to_nat i := v]> a)
  else Fault OutOfBounds.

(** ** Constants of the source file *)

Definition TOARRIVE : Z := 0.
Definition WAIT : Z := 1.
Definition ATTABLE : Z := 2.
Definition DONE : Z := 3.

(** ** Shared data *)

Record request : Type := mkRequest { reqType : Z; reqGroup : Z }.

Record STAT : Type := mkSTAT { receptionistStat : Z }.

(** The fields of [FULL_STAT] that the receptionist reads or writes. *)
Record FULL_STAT : Type := mkFULL_STAT {
  st : STAT;
  nGroups : Z;
  assignedTable : list Z;
  groupsWaiting : Z;
  receptionistRequest : request
}.

(** The semaphores of [SHARED_DATA] that the receptionist uses. *)
Inductive gate : Type :=
| mutex
| receptionistReq
| receptionistRequestPossible
| waitForTable (g : Z)
| tableDone (t : Z).

Inductive event : Type :=
| semDown (g : gate)
| semUp (g : gate)
| saveState (f : FULL_STAT).

(** The shared region [sh->fSt], the receptionist's private [groupRecord]
    and the log of the semaphore and logging calls made so far. *)
Record state : Type := mkState {
  fSt : FULL_STAT;
  groupRecord : list Z;
  log : list event
}.

Definition emit (e : event) (s : state) : state :=
  mkState (fSt s) (groupRecord s) (log s ++ [e]).

Definition save (s : state) : state := emit (saveState (fSt s)) s.

Definition set_fSt (f : FULL_STAT) (s : state) : state :=
  mkState f (groupRecord s) (log s).

Definition set_groupRecord (r : list Z) (s : state) : state :=
  mkState (fSt s) r (log s).

Definition set_receptionistStat (v : Z) (s : state) : state :=
  let f := fSt s in
  set_fSt (mkFULL_STAT (mkSTAT v) (nGroups f) (assignedTable f)
             (groupsWaiting f) (receptionistRequest f)) s.

Definition set_assignedTable (a : list Z) (s : state) : state :=
  let f := fSt s in
  set_fSt (mkFULL_STAT (st f) (nGroups f) a (groupsWaiting f)
             (receptionistRequest f)) s.

Definition set_groupsWaiting (w : Z) (s : state) : state :=
  let f := fSt s in
  set_fSt (mkFULL_STAT (st f) (nGroups f) (assignedTable f) w
             (receptionistRequest f)) s.

Definition set_receptionistRequest (r : request) (s : state) : state :=
  let f := fSt s in
  set_fSt (mkFULL_STAT (st f) (nGroups f) (assignedTable f)
             (groupsWaiting f) r) s.

(** The semaphores released in a log, in the order of their release. *)
Definition released (l : list event) : list gate :=
  omap (λ e, match e with semUp g => Some g | _ => None end) l.

(** The empty request slot. *)
Definition noRequest : request := mkRequest (-1) (-1).

(** ** The receptionist *)

Section Receptionist.

(** Constants of [probConst.h]. *)
Variable NUMTABLES : Z.
Variable MAXGROUPS : Z.
Variables WAIT_FOR_REQUEST ASSIGNTABLE RECVPAY : Z.
Variables TABLEREQ BILLREQ : Z.

(** [sh->waitForTable[n]]: one semaphore per group. *)
Definition waitForTable_at (n : Z) : result gate :=
  if decide (0 ≤ n < MAXGROUPS) then Ok (waitForTable n)
  else Fault OutOfBounds.

(** [sh->tableDone[t]]: one semaphore per table. *)
Definition tableDone_at (t : Z) : result gate :=
  if decide (0 ≤ t < NUMTABLES) then Ok (tableDone t)
  else Fault OutOfBounds.

(** The inner loop of [decideTableOrWait]: the value of [notInUse] after
    scanning [k] more groups from index [i]. *)
Fixpoint notInUse_loop (a : list Z) (numTable : Z) (k : nat) (i : Z)
  : result bool :=
  match k with
  | O => Ok true
  | S k' =>
      v ← aget a i;
      if decide (v = numTable) then Ok false
      else notInUse_loop a numTable k' (i + 1)
  end.

(** The outer loop of [decideTableOrWait]: the value of [tableID] after
    trying [k] more tables from [numTable]. *)
Fixpoint tableID_loop (a : list Z) (nG : Z) (k : nat) (numTable : Z)
  : result Z :=
  match k with
  | O => Ok (-1)
  | S k' =>
      notInUse ← notInUse_loop a numTable (Z.to_nat nG) 0;
      if notInUse : bool then Ok numTable
      else tableID_loop a nG k' (numTable + 1)
  end.

Definition decideTableOrWait (s : state) (n : Z) : result Z :=
  tableID_loop (assignedTable (fSt s)) (nGroups (fSt s))
    (Z.to_nat NUMTABLES) 0.

(** The loop of [decideNextGroup]: the value of [nextGroup] after scanning
    [k] more groups from index [i]. *)
Fixpoint nextGroup_loop (r : list Z) (k : nat) (i : Z) : result Z :=
  match k with
  | O => Ok (-1)
  | S k' =>
      v ← aget r i;
      if decide (v = WAIT) then Ok i else nextGroup_loop r k' (i + 1)
  end.

Definition decideNextGroup (s : state) : result Z :=
  nextGroup_loop (groupRecord s) (Z.to_nat (nGroups (fSt s))) 0.

(** The first critical region of [waitForGroup], up to the point where the
    receptionist blocks on [receptionistReq]. *)
Definition waitForGroup_announce (s : state) : state :=
  let s := emit (semDown mutex) s in
  let s := set_receptionistStat WAIT_FOR_REQUEST s in
  let s := save s in
  let s := emit (semUp mutex) s in
  emit (semDown receptionistReq) s.

(** The second critical region of [waitForGroup], from the point where
    [receptionistReq] has been acquired. *)
Definition waitForGroup_take (s : state) : request * state :=
  let s := emit (semDown mutex) s in
  let ret := receptionistRequest (fSt s) in
  let s := set_receptionistRequest (mkRequest (-1) (reqGroup ret)) s in
  let s := set_receptionistRequest
             (mkRequest (reqType (receptionistRequest (fSt s))) (-1)) s in
  let s := save s in
  let s := emit (semUp mutex) s in
  let s := emit (semUp receptionistRequestPossible) s in
  (ret, s).

(** [waitForGroup]; [env] is what the groups do to the shared region while
    the receptionist is blocked on [receptionistReq]. *)
Definition waitForGroup (env : state → state) (s : state) : request * state :=
  waitForGroup_take (env (waitForGroup_announce s)).

Definition provideTableOrWaitingRoom (n : Z) (s : state) : result state :=
  let s := emit (semDown mutex) s in
  let s := set_receptionistStat ASSIGNTABLE s in
  let s := save s in
  table ← decideTableOrWait s n;
  s ← (if decide (table ≠ -1) then
         a ← aset (assignedTable (fSt s)) n table;
         let s := set_assignedTable a s in
         r ← aset (groupRecord s) n ATTABLE;
         let s := set_groupRecord r s in
         g ← waitForTable_at n;
         Ok (emit (semUp g) s)
       else
         w ← int_incr (groupsWaiting (fSt s));
         let s := set_groupsWaiting w s in
         r ← aset (groupRecord s) n WAIT;
         Ok (set_groupRecord r s));
  Ok (emit (semUp mutex) s).

(** The critical region of [receivePayment]. *)
Definition receivePayment_critical (n : Z) (s : state) : result state :=
  let s := emit (semDown mutex) s in
  let s := set_receptionistStat RECVPAY s in
  let s := save s in
  t ← aget (assignedTable (fSt s)) n;
  g ← tableDone_at t;
  let s := emit (semUp g) s in
  a ← aset (assignedTable (fSt s)) n (-1);
  let s := set_assignedTable a s in
  r ← aset (groupRecord s) n DONE;
  let s := set_groupRecord r s in
  let s := save s in
  Ok (emit (semUp mutex) s).

(** [sh->fSt.groupsWaiting--]. *)
Definition decr_groupsWaiting (s : state) : result state :=
  w ← int_decr (groupsWaiting (fSt s));
  Ok (set_groupsWaiting w s).

Definition receivePayment (n : Z) (s : state) : result state :=
  s ← receivePayment_critical n s;
  group ← decideNextGroup s;
  if decide (group ≠ -1) then
    s ← provideTableOrWaitingRoom group s;
    decr_groupsWaiting s
  else Ok s.

(** One turn of the loop of [main]: take the next request and serve it. *)
Definition serve (env : state → state) (s : state) : result state :=
  let (req, s) := waitForGroup env s in
  if decide (reqType req = TABLEREQ) then
    provideTableOrWaitingRoom (reqGroup req) s
  else if decide (reqType req = BILLREQ) then
    receivePayment (reqGroup req) s
  else Ok s.

(** The loop of [main] with [k] turns left; [envs] gives, turn by turn, what
    the groups do while the receptionist is blocked. *)
Fixpoint lifeCycle_loop (k : nat) (envs : nat → state → state) (nReq : nat)
    (s : state) : result state :=
  match k with
  | O => Ok s
  | S k' => s ← serve (envs nReq) s; lifeCycle_loop k' envs (S nReq) s
  end.

(** The initialisation loop of [main] over [groupRecord]. *)
Fixpoint initRecord_loop (r : list Z) (k : nat) (g : Z) : result (list Z) :=
  match k with
  | O => Ok r
  | S k' => r ← aset r g TOARRIVE; initRecord_loop r k' (g + 1)
  end.

(** [main], from the point where the shared region is attached. *)
Definition receptionist (envs : nat → state → state) (s : state)
  : result state :=
  r ← initRecord_loop (groupRecord s) (Z.to_nat (nGroups (fSt s))) 0;
  let s := set_groupRecord r s in
  bound ← int_mul (nGroups (fSt s)) 2;
  lifeCycle_loop (Z.to_nat bound) envs 0 s.

(** ** The environment *)

(** Modelled from the spec: the source of the groups is not among the
    files embedded here.  A group posts its request "into the shared
    slot under mutual exclusion (first waiting on request slot available
    to avoid overwriting an unconsumed request)" and then "signals request
    pending". *)
Definition postRequest (r : request) (s : state) : state :=
  let s := emit (semDown receptionistRequestPossible) s in
  let s := emit (semDown mutex) s in
  let s := set_receptionistRequest r s in
  let s := emit (semUp mutex) s in
  emit (semUp receptionistReq) s.

(** Modelled from the spec: the program that fills the shared region before
    the receptionist starts is not among the files embedded here.  At the
    start no group has a table, nobody waits and the request slot is empty;
    [groupRecord] is a zeroed static array, and [TOARRIVE] is 0. *)
Definition initialState (nG stat0 : Z) : state :=
  mkState
    (mkFULL_STAT (mkSTAT stat0) nG (replicate (Z.to_nat MAXGROUPS) (-1)) 0
       noRequest)
    (replicate (Z.to_nat MAXGROUPS) 0)
    [].

(** ** Properties of states *)

(** Table [t] is held by one of the [nG] groups. *)
Definition occupied (nG : Z) (a : list Z) (t : Z) : Prop :=
  ∃ i, 0 ≤ i < nG ∧ aget a i = Ok t.

(** [t] is the first table that no group holds, or [-1] when every table
    is held. *)
Definition first_free_table (nG : Z) (a : list Z) (t : Z) : Prop :=
  (t = -1 ∧ ∀ k, 0 ≤ k < NUMTABLES → occupied nG a k) ∨
  (0 ≤ t < NUMTABLES ∧ ¬ occupied nG a t ∧
   ∀ k, 0 ≤ k < t → occupied nG a k).

(** [g] is the first group recorded as [WAIT], or [-1] when none is. *)
Definition first_waiting_group (nG : Z) (r : list Z) (g : Z) : Prop :=
  (g = -1 ∧ ∀ i, 0 ≤ i < nG → ∃ v, aget r i = Ok v ∧ v ≠ WAIT) ∨
  (0 ≤ g < nG ∧ aget r g = Ok WAIT ∧
   ∀ i, 0 ≤ i < g → ∃ v, aget r i = Ok v ∧ v ≠ WAIT).

(** The arrays have their declared size and hold all the groups. *)
Definition well_sized (s : state) : Prop :=
  Z.of_nat (length (assignedTable (fSt s))) = MAXGROUPS ∧
  Z.of_nat (length (groupRecord s)) = MAXGROUPS ∧
  nGroups (fSt s) ≤ MAXGROUPS.

(** Table uniqueness: every table that a group holds is a table of the
    restaurant, and no other group holds it. *)
Definition tables_unique (nG : Z) (a : list Z) : Prop :=
  ∀ i t, 0 ≤ i < nG → aget a i = Ok t → t ≠ -1 →
    0 ≤ t < NUMTABLES ∧ ∀ j, 0 ≤ j < nG → aget a j = Ok t → j = i.

Definition table_inv (s : state) : Prop :=
  tables_unique (nGroups (fSt s)) (assignedTable (fSt s)).

(** 1 for a group recorded as [WAIT], 0 for any other. *)
Definition is_WAIT (v : Z) : nat :=
  if decide (v = WAIT) then 1%nat else 0%nat.

(** The number of groups recorded as [WAIT]. *)
Definition count_WAIT (r : list Z) : nat :=
  length (filter (λ v, v = WAIT) r).

Definition waitingGroups (s : state) : Z :=
  Z.of_nat (count_WAIT (take (Z.to_nat (nGroups (fSt s))) (groupRecord s))).

Definition waiting_inv (s : state) : Prop :=
  groupsWaiting (fSt s) = waitingGroups s.

(** One complete operation of the receptionist, with any argument. *)
Inductive step : state → state → Prop :=
| step_waitForGroup (r : request) (s : state) :
    step s (waitForGroup (postRequest r) s).2
| step_provideTableOrWaitingRoom (n : Z) (s s' : state) :
    provideTableOrWaitingRoom n s = Ok s' → step s s'
| step_receivePayment (n : Z) (s s' : state) :
    receivePayment n s = Ok s' → step s s'.

Inductive reachable (s0 : state) : state → Prop :=
| reachable_start : reachable s0 s0
| reachable_step (s s' : state) :
    reachable s0 s → step s s' → reachable s0 s'.

(** Modelled from the spec: the source of the groups is not among the
    files embedded here.  A group that has asked for a table "blocks on its
    own table ready gate until the coordinator assigns a table", so no
    request comes from a queued group.  [may_post s n]: [n] is one of the
    groups and is not queued. *)
Definition may_post (s : state) (n : Z) : Prop :=
  0 ≤ n < nGroups (fSt s) ∧ aget (groupRecord s) n ≠ Ok WAIT.

(** Modelled from the spec: the life of a group is "ToArrive,
    PostedTableRequest, (Queued | Seated), Eating, PostedBillRequest,
    PaidAndDone".  [follows_protocol s r]: request [r] is a table request
    of a group yet to arrive or a bill request of a seated group. *)
Definition follows_protocol (s : state) (r : request) : Prop :=
  0 ≤ reqGroup r < nGroups (fSt s) ∧
  ((reqType r = TABLEREQ ∧ aget (groupRecord s) (reqGroup r) = Ok TOARRIVE) ∨
   (reqType r = BILLREQ ∧ aget (groupRecord s) (reqGroup r) = Ok ATTABLE)).

(** One complete operation of the receptionist, on behalf of a group that
    is able to post a request. *)
Inductive served : state → state → Prop :=
| served_waitForGroup (r : request) (s : state) :
    served s (waitForGroup (postRequest r) s).2
| served_provideTableOrWaitingRoom (n : Z) (s s' : state) :
    may_post s n → provideTableOrWaitingRoom n s = Ok s' → served s s'
| served_receivePayment (n : Z) (s s' : state) :
    may_post s n → receivePayment n s = Ok s' → served s s'.

Inductive quiescent (s0 : state) : state → Prop :=
| quiescent_start : quiescent s0 s0
| quiescent_step (s s' : state) :
    quiescent s0 s → served s s' → quiescent s0 s'.

End Receptionist.

(** ** Two states of scenario A *)

(** Two groups and one table, in arrays of two entries: group 0 sits at
    table 0 and group 1 is queued. *)
Definition state_queued : state :=
  mkState (mkFULL_STAT (mkSTAT 1) 2 [0; -1] 1 noRequest) [ATTABLE; WAIT] [].

(** The state in which [receivePayment 0] leaves [state_queued], with 1 for
    [ASSIGNTABLE] and 2 for [RECVPAY]. *)
Definition state_paid : state :=
  Eval vm_compute in
    match receivePayment 1 2 1 2 0 state_queued with
    | Ok s => s
    | Fault _ => state_queued
    end.

(** ** Logs, lifecycles and runs of the protocol *)

(** The critical-region discipline of a log.  [discipline held l] follows
    the events of [l] from a moment at which [mutex] is held or not and
    tells whether it is held at the end.  It is [None] when [mutex] is
    acquired while held or released while free, when the state is saved or
    a group or table semaphore is released outside a critical region, when
    a request semaphore is used inside one, and when a group or table
    semaphore is waited on. *)
Fixpoint discipline (held : bool) (l : list event) : option bool :=
  match l with
  | [] => Some held
  | e :: l' =>
      match e with
      | semDown mutex => if held then None else discipline true l'
      | semUp mutex => if held then discipline false l' else None
      | saveState _ | semUp (waitForTable _) | semUp (tableDone _) =>
          if held then discipline true l' else None
      | semDown receptionistReq | semUp receptionistReq
      | semDown receptionistRequestPossible
      | semUp receptionistRequestPossible =>
          if held then None else discipline false l'
      | semDown (waitForTable _) | semDown (tableDone _) => None
      end
  end.

(** 1 for a release of [waitForTable[g]], 0 for any other event. *)
Definition signal_of (g : Z) (e : event) : nat :=
  match e with
  | semUp (waitForTable h) => if decide (h = g) then 1%nat else 0%nat
  | _ => 0%nat
  end.

(** How often [waitForTable[g]] is released in a log. *)
Definition signals (g : Z) (l : list event) : nat :=
  sum_list_with (signal_of g) l.

(** 1 for a release of [receptionistRequestPossible], 0 otherwise. *)
Definition slot_freed (e : event) : nat :=
  match e with
  | semUp receptionistRequestPossible => 1%nat
  | _ => 0%nat
  end.

(** How many requests a log shows as taken by the receptionist. *)
Definition requests_taken (l : list event) : nat :=
  sum_list_with slot_freed l.

(** The requests a group has had served, by its record: none before it
    arrives, both once it is [DONE], one in between. *)
Definition progress (v : Z) : nat :=
  if decide (v = TOARRIVE) then 0%nat
  else if decide (v = DONE) then 2%nat else 1%nat.

Definition requests_served (s : state) : nat :=
  sum_list_with progress (take (Z.to_nat (nGroups (fSt s))) (groupRecord s)).

(** The tables held by the groups, group by group. *)
Definition tables_held (s : state) : list Z :=
  filter (λ t, t ≠ -1) (take (Z.to_nat (nGroups (fSt s)))
                          (assignedTable (fSt s))).

(** A group is recorded as [ATTABLE] exactly while it holds a table. *)
Definition record_matches (s : state) : Prop :=
  ∀ i v t, 0 ≤ i < nGroups (fSt s) →
    aget (groupRecord s) i = Ok v → aget (assignedTable (fSt s)) i = Ok t →
    (v = ATTABLE ↔ t ≠ -1).

(** The steps of a group's record. *)
Definition legal_step (v v' : Z) : Prop :=
  v' = v ∨
  (v = TOARRIVE ∧ (v' = WAIT ∨ v' = ATTABLE)) ∨
  (v = WAIT ∧ v' = ATTABLE) ∨
  (v = ATTABLE ∧ v' = DONE).

(** [waitForTable[i]] has been released once for a group that is or was at
    a table, and never for any other group. *)
Definition signalled_once (s : state) : Prop :=
  ∀ i v, 0 ≤ i < nGroups (fSt s) → aget (groupRecord s) i = Ok v →
    signals i (log s) =
      if decide (v = ATTABLE ∨ v = DONE) then 1%nat else 0%nat.

Section Protocol.

Variables NUMTABLES MAXGROUPS : Z.
Variables WAIT_FOR_REQUEST ASSIGNTABLE RECVPAY : Z.
Variables TABLEREQ BILLREQ : Z.

(** While a group is queued, every table is held. *)
Definition no_idle_table (s : state) : Prop :=
  (∃ i, 0 ≤ i < nGroups (fSt s) ∧ aget (groupRecord s) i = Ok WAIT) →
  ∀ k, 0 ≤ k < NUMTABLES →
    occupied (nGroups (fSt s)) (assignedTable (fSt s)) k.

(** One turn of the loop of [main] for a request that follows the protocol
    of the groups. *)
Inductive turn : state → state → Prop :=
| turn_serve (r : request) (s s' : state) :
    follows_protocol TABLEREQ BILLREQ s r →
    serve NUMTABLES MAXGROUPS WAIT_FOR_REQUEST ASSIGNTABLE RECVPAY
      TABLEREQ BILLREQ (postRequest r) s = Ok s' →
    turn s s'.

(** [k] such turns in a row. *)
Inductive turns : nat → state → state → Prop :=
| turns_O (s : state) : turns 0 s s
| turns_S (k : nat) (s s1 s' : state) :
    turn s s1 → turns k s1 s' → turns (S k) s s'.

(** The requests [posts nReq], [posts (nReq + 1)], ... of the next [k] turns
    of the loop follow the protocol, each in the state in which it is
    served. *)
Fixpoint protocol_posts (k : nat) (posts : nat → request) (nReq : nat)
    (s : state) : Prop :=
  match k with
  | O => True
  | S k' =>
      follows_protocol TABLEREQ BILLREQ s (posts nReq) ∧
      ∀ s1,
        serve NUMTABLES MAXGROUPS WAIT_FOR_REQUEST ASSIGNTABLE RECVPAY
          TABLEREQ BILLREQ (postRequest (posts nReq)) s = Ok s1 →
        protocol_posts k' posts (S nReq) s1
  end.

End Protocol.

(** ** A run of scenario A through the loop of [main] *)

(** The requests of scenario A with 1 for [TABLEREQ] and 2 for [BILLREQ]:
    group 0 and group 1 ask for a table, then for the bill. *)
Definition posts_A (nReq : nat) : request :=
  match nReq with
  | 0%nat => mkRequest 1 0
  | 1%nat => mkRequest 1 1
  | 2%nat => mkRequest 2 0
  | _ => mkRequest 2 1
  end.

(** The state after a turn of the loop for request [r], with one table,
    arrays of two entries and 0, 1, 2 for the receptionist's states. *)
Definition after_turn (r : request) (s : state) : state :=
  match serve 1 2 0 1 2 1 2 (postRequest r) s with
  | Ok s' => s'
  | Fault _ => s
  end.

Definition state_seated : state :=
  Eval vm_compute in after_turn (posts_A 0) (initialState 2 2 0).

Definition state_asked : state :=
  Eval vm_compute in after_turn (posts_A 1) state_seated.

Definition state_billed : state :=
  Eval vm_compute in after_turn (posts_A 2) state_asked.

Definition state_left : state :=
  Eval vm_compute in after_turn (posts_A 3) state_billed.

(** [state_queued] at the end of the critical region of
    [receivePayment 0]. *)
Definition state_vacated : state :=
  Eval vm_compute in
    match receivePayment_critical 1 2 0 state_queued with
    | Ok s => s
    | Fault _ => state_queued
    end.

(** ** Array accesses *)

Lemma aget_Ok (a : list Z) (i v : Z) :
  aget a i = Ok v ↔ 0 ≤ i ∧ a !! Z.to_nat i = Some v.
Proof.
  unfold aget. case_decide as Hi.
  - destruct (a !! Z.to_nat i) as [w|]; split.
    + intros [= ->]. done.
    + intros [_ [= ->]]. done.
    + done.
    + intros [_ [=]].
  - split; [done | intros [? _]; lia].
Qed.

Lemma aget_total (a : list Z) (i : Z) :
  0 ≤ i < Z.of_nat (length a) → ∃ v, aget a i = Ok v.
Proof.
  intros Hi. destruct (lookup_lt_is_Some_2 a (Z.to_nat i)) as [v Hv]; [lia|].
  exists v. apply aget_Ok. split; [lia | done].
Qed.

Lemma aget_bound (a : list Z) (i v : Z) :
  aget a i = Ok v → 0 ≤ i < Z.of_nat (length a).
Proof.
  intros [Hi Hv]%aget_Ok. apply lookup_lt_Some in Hv. lia.
Qed.

Lemma aset_Ok (a : list Z) (i v : Z) (a' : list Z) :
  aset a i v = Ok a' ↔
  0 ≤ i < Z.of_nat (length a) ∧ a' = <[Z.to_nat i := v]> a.
Proof.
  unfold aset. case_decide as Hi; split.
  - intros [= <-]. done.
  - intros [_ ->]. done.
  - done.
  - intros [? _]. lia.
Qed.

Lemma aset_total (a : list Z) (i v : Z) :
  0 ≤ i < Z.of_nat (length a) → aset a i v = Ok (<[Z.to_nat i := v]> a).
Proof. intros Hi. by apply aset_Ok. Qed.

Lemma aget_insert_eq (a : list Z) (i v : Z) :
  0 ≤ i < Z.of_nat (length a) → aget (<[Z.to_nat i := v]> a) i = Ok v.
Proof.
  intros Hi. apply aget_Ok. split; [lia|].
  apply list_lookup_insert_eq. lia.
Qed.

Lemma aget_insert_ne (a : list Z) (i j v : Z) :
  0 ≤ i → i ≠ j → aget (<[Z.to_nat i := v]> a) j = aget a j.
Proof.
  intros Hi Hne. unfold aget. case_decide; [|done].
  rewrite list_lookup_insert_ne; [done | lia].
Qed.

(** ** The decision functions *)

Section Decisions.

Variable NUMTABLES : Z.

Lemma notInUse_loop_true (a : list Z) (t : Z) (k : nat) (i : Z) :
  notInUse_loop a t k i = Ok true →
  ∀ j, i ≤ j < i + Z.of_nat k → ∃ v, aget a j = Ok v ∧ v ≠ t.
Proof.
  revert i. induction k as [|k IH]; intros i Hrun j Hj; [lia|].
  cbn in Hrun. destruct (aget a i) as [v|e] eqn:Hv; cbn in Hrun; [|done].
  case_decide as Heq; [done|].
  destruct (decide (j = i)) as [->|Hne]; [by exists v|].
  apply (IH (i + 1)); [done | lia].
Qed.

Lemma notInUse_loop_false (a : list Z) (t : Z) (k : nat) (i : Z) :
  notInUse_loop a t k i = Ok false →
  ∃ j, i ≤ j < i + Z.of_nat k ∧ aget a j = Ok t.
Proof.
  revert i. induction k as [|k IH]; intros i Hrun; [done|].
  cbn in Hrun. destruct (aget a i) as [v|e] eqn:Hv; cbn in Hrun; [|done].
  case_decide as Heq.
  - subst v. exists i. split; [lia | done].
  - destruct (IH _ Hrun) as (j & Hj & Hget). exists j. split; [lia | done].
Qed.

Lemma notInUse_loop_total (a : list Z) (t : Z) (k : nat) (i : Z) :
  0 ≤ i → i + Z.of_nat k ≤ Z.of_nat (length a) →
  ∃ b, notInUse_loop a t k i = Ok b.
Proof.
  revert i. induction k as [|k IH]; intros i Hi Hlen; [by exists true|].
  cbn. destruct (aget_total a i) as [v ->]; [lia|]. cbn.
  case_decide; [by exists false|]. apply IH; lia.
Qed.

Lemma tableID_loop_spec (a : list Z) (nG : Z) (k : nat) (t0 r : Z) :
  tableID_loop a nG k t0 = Ok r →
  (r = -1 ∧ ∀ t, t0 ≤ t < t0 + Z.of_nat k → occupied nG a t) ∨
  (t0 ≤ r < t0 + Z.of_nat k ∧ ¬ occupied nG a r ∧
   ∀ t, t0 ≤ t < r → occupied nG a t).
Proof.
  revert t0. induction k as [|k IH]; intros t0 Hrun.
  - cbn in Hrun. injection Hrun as <-. left. split; [done | lia].
  - cbn in Hrun.
    destruct (notInUse_loop _ _ _ _) as [[|]|e] eqn:Hin; cbn in Hrun;
      [| |done].
    + injection Hrun as <-. right. split; [lia|]. split; [|lia].
      intros (i & Hi & Hget).
      destruct (notInUse_loop_true _ _ _ _ Hin i) as (v & Hv & Hne); [lia|].
      congruence.
    + assert (occupied nG a t0) as Hocc.
      { destruct (notInUse_loop_false _ _ _ _ Hin) as (j & Hj & Hget).
        exists j. split; [lia | done]. }
      destruct (IH _ Hrun) as [[-> Hall]|(Hr & Hfree & Hbelow)].
      * left. split; [done|]. intros t Ht.
        destruct (decide (t = t0)) as [->|]; [done | apply Hall; lia].
      * right. split; [lia|]. split; [done|]. intros t Ht.
        destruct (decide (t = t0)) as [->|]; [done | apply Hbelow; lia].
Qed.

Lemma tableID_loop_total (a : list Z) (nG : Z) (k : nat) (t0 : Z) :
  nG ≤ Z.of_nat (length a) → ∃ r, tableID_loop a nG k t0 = Ok r.
Proof.
  intros Hlen. revert t0. induction k as [|k IH]; intros t0; [by eexists|].
  cbn.
  destruct (notInUse_loop_total a t0 (Z.to_nat nG) 0) as [b ->];
    [lia | lia |].
  cbn. destruct b; [by eexists | apply IH].
Qed.

Lemma decideTableOrWait_sound (s : state) (n t : Z) :
  decideTableOrWait NUMTABLES s n = Ok t →
  first_free_table NUMTABLES (nGroups (fSt s)) (assignedTable (fSt s)) t.
Proof.
  intros Hrun. apply tableID_loop_spec in Hrun.
  destruct Hrun as [[-> Hall]|(Hr & Hfree & Hbelow)].
  - left. split; [done|]. intros k Hk. apply Hall. lia.
  - right. split; [lia|]. split; [done|]. intros k Hk. apply Hbelow. lia.
Qed.

Lemma decideTableOrWait_total (s : state) (n : Z) :
  nGroups (fSt s) ≤ Z.of_nat (length (assignedTable (fSt s))) →
  ∃ t, decideTableOrWait NUMTABLES s n = Ok t.
Proof. apply tableID_loop_total. Qed.

Lemma first_free_table_unique (nG : Z) (a : list Z) (t u : Z) :
  first_free_table NUMTABLES nG a t → first_free_table NUMTABLES nG a u →
  t = u.
Proof.
  intros [[-> Ht]|(Ht & Hft & Hbt)] [[-> Hu]|(Hu & Hfu & Hbu)]; [done| | |].
  - destruct Hfu. apply Ht. lia.
  - destruct Hft. apply Hu. lia.
  - destruct (Z.lt_trichotomy t u) as [Hlt|[->|Hgt]]; [|done|].
    + destruct Hft. apply Hbu. lia.
    + destruct Hfu. apply Hbt. lia.
Qed.

Lemma nextGroup_loop_spec (r : list Z) (k : nat) (i0 g : Z) :
  nextGroup_loop r k i0 = Ok g →
  (g = -1 ∧
   ∀ i, i0 ≤ i < i0 + Z.of_nat k → ∃ v, aget r i = Ok v ∧ v ≠ WAIT) ∨
  (i0 ≤ g < i0 + Z.of_nat k ∧ aget r g = Ok WAIT ∧
   ∀ i, i0 ≤ i < g → ∃ v, aget r i = Ok v ∧ v ≠ WAIT).
Proof.
  revert i0. induction k as [|k IH]; intros i0 Hrun.
  - cbn in Hrun. injection Hrun as <-. left. split; [done | lia].
  - cbn in Hrun. destruct (aget r i0) as [v|e] eqn:Hv; cbn in Hrun; [|done].
    case_decide as Heq.
    + injection Hrun as <-. subst v. right. split; [lia|]. split; [done|lia].
    + destruct (IH _ Hrun) as [[-> Hall]|(Hg & Hw & Hbelow)].
      * left. split; [done|]. intros i Hi.
        destruct (decide (i = i0)) as [->|]; [by exists v | apply Hall; lia].
      * right. split; [lia|]. split; [done|]. intros i Hi.
        destruct (decide (i = i0)) as [->|]; [by exists v | apply Hbelow; lia].
Qed.

Lemma nextGroup_loop_total (r : list Z) (k : nat) (i0 : Z) :
  0 ≤ i0 → i0 + Z.of_nat k ≤ Z.of_nat (length r) →
  ∃ g, nextGroup_loop r k i0 = Ok g.
Proof.
  revert i0. induction k as [|k IH]; intros i0 Hi Hlen; [by eexists|].
  cbn. destruct (aget_total r i0) as [v ->]; [lia|]. cbn.
  case_decide; [by eexists | apply IH; lia].
Qed.

Lemma decideNextGroup_sound (s : state) (g : Z) :
  decideNextGroup s = Ok g →
  first_waiting_group (nGroups (fSt s)) (groupRecord s) g.
Proof.
  intros Hrun. apply nextGroup_loop_spec in Hrun.
  destruct Hrun as [[-> Hall]|(Hg & Hw & Hbelow)].
  - left. split; [done|]. intros i Hi. apply Hall. lia.
  - right. split; [lia|]. split; [done|]. intros i Hi. apply Hbelow. lia.
Qed.

Lemma decideNextGroup_total (s : state) :
  nGroups (fSt s) ≤ Z.of_nat (length (groupRecord s)) →
  ∃ g, decideNextGroup s = Ok g.
Proof. intros Hlen. apply nextGroup_loop_total; lia. Qed.

End Decisions.

(** ** The operations, step by step *)

Ltac step_bind H :=
  match type of H with
  | (?m ≫= _) = Ok _ =>
      let E := fresh "E" in
      destruct m eqn:E; cbn in H; [|discriminate H]
  end.

Ltac unfold_state :=
  unfold emit, save, set_groupRecord, set_assignedTable, set_groupsWaiting,
    set_receptionistStat, set_receptionistRequest, set_fSt; cbn.

Lemma int_incr_Ok (x w : Z) : int_incr x = Ok w ↔ x < INT_MAX ∧ w = x + 1.
Proof.
  unfold int_incr. case_decide; split; try done.
  - by intros [= <-].
  - by intros [_ ->].
  - intros [? _]. lia.
Qed.

Lemma int_decr_Ok (x w : Z) : int_decr x = Ok w ↔ INT_MIN < x ∧ w = x - 1.
Proof.
  unfold int_decr. case_decide; split; try done.
  - by intros [= <-].
  - by intros [_ ->].
  - intros [? _]. lia.
Qed.

Lemma decr_groupsWaiting_Ok (s s' : state) :
  decr_groupsWaiting s = Ok s' ↔
  INT_MIN < groupsWaiting (fSt s) ∧
  s' = set_groupsWaiting (groupsWaiting (fSt s) - 1) s.
Proof.
  unfold decr_groupsWaiting, int_decr. case_decide; cbn; split; try done.
  - by intros [= <-].
  - by intros [_ ->].
  - intros [? _]. lia.
Qed.

Section Operations.

Variables NUMTABLES MAXGROUPS : Z.
Variables WAIT_FOR_REQUEST ASSIGNTABLE RECVPAY : Z.

Lemma waitForTable_at_Ok (n : Z) (g : gate) :
  waitForTable_at MAXGROUPS n = Ok g ↔ 0 ≤ n < MAXGROUPS ∧ g = waitForTable n.
Proof.
  unfold waitForTable_at. case_decide; split; try done.
  - by intros [= <-].
  - by intros [_ ->].
  - intros [? _]. lia.
Qed.

Lemma tableDone_at_Ok (t : Z) (g : gate) :
  tableDone_at NUMTABLES t = Ok g ↔ 0 ≤ t < NUMTABLES ∧ g = tableDone t.
Proof.
  unfold tableDone_at. case_decide; split; try done.
  - by intros [= <-].
  - by intros [_ ->].
  - intros [? _]. lia.
Qed.

(** What a successful [provideTableOrWaitingRoom] has done. *)
Lemma provideTableOrWaitingRoom_inv (n : Z) (s s' : state) :
  provideTableOrWaitingRoom NUMTABLES MAXGROUPS ASSIGNTABLE n s = Ok s' →
  ∃ table, decideTableOrWait NUMTABLES s n = Ok table ∧
    0 ≤ n < Z.of_nat (length (groupRecord s)) ∧
    nGroups (fSt s') = nGroups (fSt s) ∧
    receptionistRequest (fSt s') = receptionistRequest (fSt s) ∧
    st (fSt s') = mkSTAT ASSIGNTABLE ∧
    ((table ≠ -1 ∧
      0 ≤ n < Z.of_nat (length (assignedTable (fSt s))) ∧
      0 ≤ n < MAXGROUPS ∧
      assignedTable (fSt s') =
        <[Z.to_nat n := table]> (assignedTable (fSt s)) ∧
      groupRecord s' = <[Z.to_nat n := ATTABLE]> (groupRecord s) ∧
      groupsWaiting (fSt s') = groupsWaiting (fSt s) ∧
      log s' = log s ++
        [semDown mutex;
         saveState (fSt (set_receptionistStat ASSIGNTABLE s));
         semUp (waitForTable n); semUp mutex]) ∨
     (table = -1 ∧
      groupsWaiting (fSt s) < INT_MAX ∧
      assignedTable (fSt s') = assignedTable (fSt s) ∧
      groupRecord s' = <[Z.to_nat n := WAIT]> (groupRecord s) ∧
      groupsWaiting (fSt s') = groupsWaiting (fSt s) + 1 ∧
      log s' = log s ++
        [semDown mutex;
         saveState (fSt (set_receptionistStat ASSIGNTABLE s));
         semUp mutex])).
Proof.
  unfold provideTableOrWaitingRoom. cbn.
  change (decideTableOrWait NUMTABLES _ n)
    with (decideTableOrWait NUMTABLES s n).
  intros H. step_bind H. rename a into table. exists table. split; [done|].
  case_decide as Ht.
  - step_bind H. injection H as <-.
    step_bind E0. step_bind E0. step_bind E0. injection E0 as <-.
    apply aset_Ok in E1 as [Hn ->]. apply aset_Ok in E2 as [Hr ->].
    apply waitForTable_at_Ok in E3 as [Hm ->]. cbn.
    repeat split; try lia. left. repeat split; try done; try lia.
    by rewrite <- !app_assoc.
  - step_bind H. injection H as <-.
    step_bind E0. step_bind E0. injection E0 as <-.
    apply int_incr_Ok in E1 as [Hw ->]. apply aset_Ok in E2 as [Hr ->]. cbn.
    repeat split; try lia. right. repeat split; try done; try lia.
    by rewrite <- !app_assoc.
Qed.

(** When [provideTableOrWaitingRoom] runs to its end. *)
Lemma provideTableOrWaitingRoom_runs (n : Z) (s : state) (table : Z) :
  decideTableOrWait NUMTABLES s n = Ok table →
  0 ≤ n < Z.of_nat (length (groupRecord s)) →
  (table ≠ -1 →
   0 ≤ n < Z.of_nat (length (assignedTable (fSt s))) ∧ 0 ≤ n < MAXGROUPS) →
  (table = -1 → groupsWaiting (fSt s) < INT_MAX) →
  ∃ s', provideTableOrWaitingRoom NUMTABLES MAXGROUPS ASSIGNTABLE n s = Ok s'.
Proof.
  intros Hd Hr Hseat Hqueue. unfold provideTableOrWaitingRoom. cbn.
  change (decideTableOrWait NUMTABLES _ n)
    with (decideTableOrWait NUMTABLES s n).
  rewrite Hd. cbn. case_decide as Ht.
  - destruct (Hseat Ht) as [Ha Hm].
    rewrite (aset_total _ _ _ Ha). cbn. rewrite (aset_total _ _ _ Hr). cbn.
    unfold waitForTable_at. rewrite decide_True by done. cbn. by eexists.
  - unfold int_incr. rewrite decide_True by (apply Hqueue; lia). cbn.
    rewrite (aset_total _ _ _ Hr). cbn. by eexists.
Qed.

(** What a successful critical region of [receivePayment] has done. *)
Lemma receivePayment_critical_inv (n : Z) (s s1 : state) :
  receivePayment_critical NUMTABLES RECVPAY n s = Ok s1 →
  ∃ t, aget (assignedTable (fSt s)) n = Ok t ∧
    0 ≤ t < NUMTABLES ∧
    0 ≤ n < Z.of_nat (length (groupRecord s)) ∧
    nGroups (fSt s1) = nGroups (fSt s) ∧
    receptionistRequest (fSt s1) = receptionistRequest (fSt s) ∧
    st (fSt s1) = mkSTAT RECVPAY ∧
    assignedTable (fSt s1) = <[Z.to_nat n := -1]> (assignedTable (fSt s)) ∧
    groupRecord s1 = <[Z.to_nat n := DONE]> (groupRecord s) ∧
    groupsWaiting (fSt s1) = groupsWaiting (fSt s) ∧
    log s1 = log s ++
      [semDown mutex;
       saveState (fSt (set_receptionistStat RECVPAY s));
       semUp (tableDone t);
       saveState (fSt s1);
       semUp mutex].
Proof.
  unfold receivePayment_critical. cbn. intros H.
  step_bind H. rename a into t. step_bind H. step_bind H. step_bind H.
  injection H as <-.
  apply tableDone_at_Ok in E0 as [Ht ->]. apply aset_Ok in E1 as [Hn ->].
  apply aset_Ok in E2 as [Hr ->]. cbn.
  exists t. repeat split; try done; try lia.
  by rewrite <- !app_assoc.
Qed.

(** When the critical region of [receivePayment] runs to its end. *)
Lemma receivePayment_critical_runs (n : Z) (s : state) (t : Z) :
  aget (assignedTable (fSt s)) n = Ok t →
  0 ≤ t < NUMTABLES →
  n < Z.of_nat (length (groupRecord s)) →
  ∃ s1, receivePayment_critical NUMTABLES RECVPAY n s = Ok s1.
Proof.
  intros Hget Ht Hr. pose proof (aget_bound _ _ _ Hget) as Hn.
  unfold receivePayment_critical. cbn. rewrite Hget. cbn.
  unfold tableDone_at. rewrite decide_True by done. cbn.
  rewrite (aset_total _ _ _ Hn). cbn.
  rewrite aset_total by lia. cbn. by eexists.
Qed.

(** The gate access of [receivePayment] outside the gate array. *)
Lemma receivePayment_critical_faults (n : Z) (s : state) (t : Z) :
  aget (assignedTable (fSt s)) n = Ok t →
  ¬ (0 ≤ t < NUMTABLES) →
  receivePayment_critical NUMTABLES RECVPAY n s = Fault OutOfBounds.
Proof.
  intros Hget Ht. unfold receivePayment_critical. cbn. rewrite Hget. cbn.
  unfold tableDone_at. by rewrite decide_False.
Qed.

(** The state in which [provideTableOrWaitingRoom] leaves a seated group. *)
Lemma provideTableOrWaitingRoom_seats (n : Z) (s : state) (table : Z) :
  decideTableOrWait NUMTABLES s n = Ok table →
  table ≠ -1 →
  0 ≤ n < Z.of_nat (length (assignedTable (fSt s))) →
  0 ≤ n < Z.of_nat (length (groupRecord s)) →
  0 ≤ n < MAXGROUPS →
  provideTableOrWaitingRoom NUMTABLES MAXGROUPS ASSIGNTABLE n s =
  Ok (mkState
        (mkFULL_STAT (mkSTAT ASSIGNTABLE) (nGroups (fSt s))
           (<[Z.to_nat n := table]> (assignedTable (fSt s)))
           (groupsWaiting (fSt s)) (receptionistRequest (fSt s)))
        (<[Z.to_nat n := ATTABLE]> (groupRecord s))
        (log s ++
           [semDown mutex;
            saveState (fSt (set_receptionistStat ASSIGNTABLE s));
            semUp (waitForTable n); semUp mutex])).
Proof.
  intros Hd Ht Ha Hr Hm. unfold provideTableOrWaitingRoom. cbn.
  change (decideTableOrWait NUMTABLES _ n)
    with (decideTableOrWait NUMTABLES s n).
  rewrite Hd. cbn. rewrite decide_True by done.
  rewrite (aset_total _ _ _ Ha). cbn. rewrite (aset_total _ _ _ Hr). cbn.
  unfold waitForTable_at. rewrite decide_True by done. cbn.
  unfold_state. by rewrite <- !app_assoc.
Qed.

(** The state in which [provideTableOrWaitingRoom] leaves a queued group. *)
Lemma provideTableOrWaitingRoom_queues (n : Z) (s : state) :
  decideTableOrWait NUMTABLES s n = Ok (-1) →
  0 ≤ n < Z.of_nat (length (groupRecord s)) →
  groupsWaiting (fSt s) < INT_MAX →
  provideTableOrWaitingRoom NUMTABLES MAXGROUPS ASSIGNTABLE n s =
  Ok (mkState
        (mkFULL_STAT (mkSTAT ASSIGNTABLE) (nGroups (fSt s))
           (assignedTable (fSt s)) (groupsWaiting (fSt s) + 1)
           (receptionistRequest (fSt s)))
        (<[Z.to_nat n := WAIT]> (groupRecord s))
        (log s ++
           [semDown mutex;
            saveState (fSt (set_receptionistStat ASSIGNTABLE s));
            semUp mutex])).
Proof.
  intros Hd Hr Hw. unfold provideTableOrWaitingRoom. cbn.
  change (decideTableOrWait NUMTABLES _ n)
    with (decideTableOrWait NUMTABLES s n).
  rewrite Hd. cbn. rewrite decide_False by (intros Hne; by apply Hne).
  unfold int_incr. rewrite decide_True by done. cbn.
  rewrite (aset_total _ _ _ Hr). cbn. unfold_state.
  by rewrite <- !app_assoc.
Qed.

(** The state at the end of the critical region of [receivePayment]. *)
Lemma receivePayment_critical_frees (n : Z) (s : state) (t : Z) :
  aget (assignedTable (fSt s)) n = Ok t →
  0 ≤ t < NUMTABLES →
  n < Z.of_nat (length (groupRecord s)) →
  let f1 :=
    mkFULL_STAT (mkSTAT RECVPAY) (nGroups (fSt s))
      (<[Z.to_nat n := -1]> (assignedTable (fSt s)))
      (groupsWaiting (fSt s)) (receptionistRequest (fSt s)) in
  receivePayment_critical NUMTABLES RECVPAY n s =
  Ok (mkState f1 (<[Z.to_nat n := DONE]> (groupRecord s))
        (log s ++
           [semDown mutex;
            saveState (fSt (set_receptionistStat RECVPAY s));
            semUp (tableDone t); saveState f1; semUp mutex])).
Proof.
  intros Hget Ht Hr. pose proof (aget_bound _ _ _ Hget) as Hn.
  unfold receivePayment_critical. cbn. rewrite Hget. cbn.
  unfold tableDone_at. rewrite decide_True by done. cbn.
  rewrite (aset_total _ _ _ Hn). cbn.
  rewrite aset_total by lia. cbn. unfold_state.
  by rewrite <- !app_assoc.
Qed.

(** What a successful [receivePayment] has done. *)
Lemma receivePayment_inv (n : Z) (s s' : state) :
  receivePayment NUMTABLES MAXGROUPS ASSIGNTABLE RECVPAY n s = Ok s' →
  ∃ s1 group,
    receivePayment_critical NUMTABLES RECVPAY n s = Ok s1 ∧
    decideNextGroup s1 = Ok group ∧
    ((group = -1 ∧ s' = s1) ∨
     (group ≠ -1 ∧ ∃ s2,
        provideTableOrWaitingRoom NUMTABLES MAXGROUPS ASSIGNTABLE group s1
          = Ok s2 ∧
        decr_groupsWaiting s2 = Ok s')).
Proof.
  unfold receivePayment. intros H.
  step_bind H. rename a into s1. step_bind H. rename a into group.
  exists s1, group. split; [done|]. split; [done|].
  case_decide as Hg.
  - right. split; [done|]. step_bind H. by exists a.
  - left. injection H as <-. split; [lia | done].
Qed.

(** [receivePayment] when a group is queued. *)
Lemma receivePayment_serves_queue (n : Z) (s s1 s2 : state) (group : Z) :
  receivePayment_critical NUMTABLES RECVPAY n s = Ok s1 →
  decideNextGroup s1 = Ok group →
  group ≠ -1 →
  provideTableOrWaitingRoom NUMTABLES MAXGROUPS ASSIGNTABLE group s1 = Ok s2 →
  INT_MIN < groupsWaiting (fSt s2) →
  receivePayment NUMTABLES MAXGROUPS ASSIGNTABLE RECVPAY n s =
  Ok (set_groupsWaiting (groupsWaiting (fSt s2) - 1) s2).
Proof.
  intros Hcrit Hnext Hg Hprov Hw. unfold receivePayment.
  rewrite Hcrit. cbn. rewrite Hnext. cbn. rewrite decide_True by done.
  rewrite Hprov. cbn. unfold decr_groupsWaiting, int_decr.
  by rewrite decide_True.
Qed.

(** [receivePayment] when no group is queued. *)
Lemma receivePayment_no_queue (n : Z) (s s1 : state) :
  receivePayment_critical NUMTABLES RECVPAY n s = Ok s1 →
  decideNextGroup s1 = Ok (-1) →
  receivePayment NUMTABLES MAXGROUPS ASSIGNTABLE RECVPAY n s = Ok s1.
Proof.
  intros Hcrit Hnext. unfold receivePayment.
  rewrite Hcrit. cbn. rewrite Hnext. cbn.
  by rewrite decide_False by (intros Hne; by apply Hne).
Qed.

End Operations.

(** ** Table uniqueness is preserved *)

Section TableInvariant.

Variables NUMTABLES MAXGROUPS : Z.
Variables WAIT_FOR_REQUEST ASSIGNTABLE RECVPAY : Z.

Lemma tables_unique_seat (nG : Z) (a : list Z) (n table : Z) :
  tables_unique NUMTABLES nG a →
  first_free_table NUMTABLES nG a table →
  table ≠ -1 →
  0 ≤ n < Z.of_nat (length a) →
  tables_unique NUMTABLES nG (<[Z.to_nat n := table]> a).
Proof.
  intros Hinv [[-> _]|(Hrange & Hfree & _)] Hne Hn i t Hi Hget Ht; [done|].
  destruct (decide (i = n)) as [->|Hin].
  - rewrite aget_insert_eq in Hget by done. injection Hget as <-.
    split; [done|]. intros j Hj Hgetj.
    destruct (decide (j = n)) as [|Hjn]; [done|].
    rewrite aget_insert_ne in Hgetj by lia.
    destruct Hfree. by exists j.
  - rewrite aget_insert_ne in Hget by lia.
    destruct (Hinv i t Hi Hget Ht) as [Hr Huniq]. split; [done|].
    intros j Hj Hgetj. destruct (decide (j = n)) as [->|Hjn].
    + rewrite aget_insert_eq in Hgetj by done. injection Hgetj as <-.
      destruct Hfree. by exists i.
    + rewrite aget_insert_ne in Hgetj by lia. by apply Huniq.
Qed.

Lemma tables_unique_clear (nG : Z) (a : list Z) (n : Z) :
  tables_unique NUMTABLES nG a →
  0 ≤ n < Z.of_nat (length a) →
  tables_unique NUMTABLES nG (<[Z.to_nat n := -1]> a).
Proof.
  intros Hinv Hn i t Hi Hget Ht.
  destruct (decide (i = n)) as [->|Hin].
  { rewrite aget_insert_eq in Hget by done. by injection Hget as <-. }
  rewrite aget_insert_ne in Hget by lia.
  destruct (Hinv i t Hi Hget Ht) as [Hr Huniq]. split; [done|].
  intros j Hj Hgetj. destruct (decide (j = n)) as [->|Hjn].
  { rewrite aget_insert_eq in Hgetj by done. by injection Hgetj as <-. }
  rewrite aget_insert_ne in Hgetj by lia. by apply Huniq.
Qed.

Lemma table_inv_provideTableOrWaitingRoom (n : Z) (s s' : state) :
  provideTableOrWaitingRoom NUMTABLES MAXGROUPS ASSIGNTABLE n s = Ok s' →
  table_inv NUMTABLES s → table_inv NUMTABLES s'.
Proof.
  intros (table & Hd & Hr & HnG & _ & _ & Hcase)%provideTableOrWaitingRoom_inv
    Hinv.
  unfold table_inv in *. rewrite HnG.
  destruct Hcase as [(Ht & Hn & _ & -> & _)|(_ & _ & -> & _)]; [|done].
  apply tables_unique_seat; try done. by eapply decideTableOrWait_sound.
Qed.

Lemma table_inv_receivePayment_critical (n : Z) (s s1 : state) :
  receivePayment_critical NUMTABLES RECVPAY n s = Ok s1 →
  table_inv NUMTABLES s → table_inv NUMTABLES s1.
Proof.
  intros (t & Hget & _ & _ & HnG & _ & _ & Ha & _)%receivePayment_critical_inv
    Hinv.
  unfold table_inv in *. rewrite HnG, Ha.
  apply tables_unique_clear; [done|]. by eapply aget_bound.
Qed.

Lemma table_inv_receivePayment (n : Z) (s s' : state) :
  receivePayment NUMTABLES MAXGROUPS ASSIGNTABLE RECVPAY n s = Ok s' →
  table_inv NUMTABLES s → table_inv NUMTABLES s'.
Proof.
  intros (s1 & group & Hcrit & _ & Hcase)%receivePayment_inv Hinv.
  apply (table_inv_receivePayment_critical _ _ _ Hcrit) in Hinv.
  destruct Hcase as [[_ ->]|(_ & s2 & Hprov & Hdecr)]; [done|].
  apply (table_inv_provideTableOrWaitingRoom _ _ _ Hprov) in Hinv.
  apply decr_groupsWaiting_Ok in Hdecr as [_ ->]. exact Hinv.
Qed.

Lemma table_inv_step (s s' : state) :
  step NUMTABLES MAXGROUPS WAIT_FOR_REQUEST ASSIGNTABLE RECVPAY s s' →
  table_inv NUMTABLES s → table_inv NUMTABLES s'.
Proof.
  intros [r s1|n s1 s2 Hprov|n s1 s2 Hpay] Hinv.
  - exact Hinv.
  - by eapply table_inv_provideTableOrWaitingRoom.
  - by eapply table_inv_receivePayment.
Qed.

Lemma table_inv_initialState (nG stat0 : Z) :
  table_inv NUMTABLES (initialState MAXGROUPS nG stat0).
Proof.
  intros i t _ [_ Hget]%aget_Ok Ht. cbn in Hget.
  apply lookup_replicate_1 in Hget as [-> _]. done.
Qed.

End TableInvariant.

(** ** The count of waiting groups is preserved *)

Lemma count_WAIT_cons (v : Z) (l : list Z) :
  count_WAIT (v :: l) = (is_WAIT v + count_WAIT l)%nat.
Proof.
  unfold count_WAIT, is_WAIT. rewrite filter_cons. by case_decide.
Qed.

Lemma count_WAIT_insert (l : list Z) (i : nat) (old v : Z) :
  l !! i = Some old →
  (count_WAIT (<[i:=v]> l) + is_WAIT old = count_WAIT l + is_WAIT v)%nat.
Proof.
  revert i. induction l as [|x l IH]; intros [|i] Hi; try done.
  - injection Hi as ->. change (<[0%nat:=v]> (old :: l)) with (v :: l).
    rewrite !count_WAIT_cons. lia.
  - change (<[S i:=v]> (x :: l)) with (x :: <[i:=v]> l).
    rewrite !count_WAIT_cons. specialize (IH i Hi). lia.
Qed.

Lemma count_WAIT_replicate (k : nat) (v : Z) :
  v ≠ WAIT → count_WAIT (replicate k v) = 0%nat.
Proof.
  intros Hv. induction k as [|k IH]; [done|].
  cbn [replicate]. rewrite count_WAIT_cons, IH. unfold is_WAIT.
  by rewrite decide_False.
Qed.

Section WaitingInvariant.

Variables NUMTABLES MAXGROUPS : Z.
Variables WAIT_FOR_REQUEST ASSIGNTABLE RECVPAY : Z.

(** Recording a new state for one of the groups. *)
Lemma count_WAIT_record (r : list Z) (nG n old v : Z) :
  0 ≤ n < nG → aget r n = Ok old →
  Z.of_nat (count_WAIT (take (Z.to_nat nG) (<[Z.to_nat n := v]> r)))
  + Z.of_nat (is_WAIT old)
  = Z.of_nat (count_WAIT (take (Z.to_nat nG) r)) + Z.of_nat (is_WAIT v).
Proof.
  intros Hn [_ Hget]%aget_Ok.
  rewrite take_insert_lt by lia.
  pose proof (count_WAIT_insert (take (Z.to_nat nG) r) (Z.to_nat n) old v)
    as Hcount.
  rewrite lookup_take_lt in Hcount by lia. specialize (Hcount Hget). lia.
Qed.

Lemma may_post_record (s : state) (n : Z) :
  may_post s n → 0 ≤ n < Z.of_nat (length (groupRecord s)) →
  ∃ old, aget (groupRecord s) n = Ok old ∧ is_WAIT old = 0%nat.
Proof.
  intros [_ Hne] Hn. destruct (aget_total _ _ Hn) as [old Hold].
  exists old. split; [done|]. unfold is_WAIT. rewrite decide_False; [done|].
  intros ->. done.
Qed.

Lemma waiting_inv_provideTableOrWaitingRoom (n : Z) (s s' : state) :
  may_post s n →
  provideTableOrWaitingRoom NUMTABLES MAXGROUPS ASSIGNTABLE n s = Ok s' →
  waiting_inv s → waiting_inv s'.
Proof.
  intros Hpost
    (table & Hd & Hr & HnG & _ & _ & Hcase)%provideTableOrWaitingRoom_inv
    Hinv.
  destruct (may_post_record _ _ Hpost Hr) as (old & Hold & Hnw).
  destruct Hpost as [Hn _].
  unfold waiting_inv, waitingGroups in *. rewrite HnG.
  destruct Hcase as [(_ & _ & _ & _ & -> & -> & _)|(_ & _ & _ & -> & -> & _)].
  - pose proof (count_WAIT_record _ _ _ _ ATTABLE Hn Hold) as Hc.
    rewrite Hnw in Hc. change (is_WAIT ATTABLE) with 0%nat in Hc. lia.
  - pose proof (count_WAIT_record _ _ _ _ WAIT Hn Hold) as Hc.
    rewrite Hnw in Hc. change (is_WAIT WAIT) with 1%nat in Hc. lia.
Qed.

(** The table that a paying group gives back is free afterwards. *)
Lemma paid_table_is_free (s s1 : state) (n t : Z) :
  table_inv NUMTABLES s →
  0 ≤ n < nGroups (fSt s) →
  aget (assignedTable (fSt s)) n = Ok t →
  0 ≤ t < NUMTABLES →
  assignedTable (fSt s1) = <[Z.to_nat n := -1]> (assignedTable (fSt s)) →
  nGroups (fSt s1) = nGroups (fSt s) →
  ¬ occupied (nGroups (fSt s1)) (assignedTable (fSt s1)) t.
Proof.
  intros Hinv Hn Hget Ht -> -> (i & Hi & Hgeti).
  pose proof (aget_bound _ _ _ Hget) as Hb.
  destruct (decide (i = n)) as [->|Hin].
  - rewrite aget_insert_eq in Hgeti by done. injection Hgeti as <-. lia.
  - rewrite aget_insert_ne in Hgeti by lia.
    destruct (Hinv n t Hn Hget) as [_ Huniq]; [lia|].
    by specialize (Huniq i Hi Hgeti).
Qed.

(** After a payment the first queued group, if any, is seated. *)
Lemma receivePayment_reassigns (n : Z) (s s1 s2 : state) (group : Z) :
  table_inv NUMTABLES s →
  0 ≤ n < nGroups (fSt s) →
  receivePayment_critical NUMTABLES RECVPAY n s = Ok s1 →
  provideTableOrWaitingRoom NUMTABLES MAXGROUPS ASSIGNTABLE group s1 = Ok s2 →
  ∃ table, 0 ≤ table < NUMTABLES ∧
    assignedTable (fSt s2) =
      <[Z.to_nat group := table]> (assignedTable (fSt s1)) ∧
    0 ≤ group < Z.of_nat (length (assignedTable (fSt s1))) ∧
    groupRecord s2 = <[Z.to_nat group := ATTABLE]> (groupRecord s1) ∧
    groupsWaiting (fSt s2) = groupsWaiting (fSt s1).
Proof.
  intros Hinv Hn
    (t & Hget & Ht & _ & HnG & _ & _ & Ha & _)%receivePayment_critical_inv
    (table & Hd & _ & _ & _ & _ & Hcase)%provideTableOrWaitingRoom_inv.
  pose proof (paid_table_is_free s s1 n t Hinv Hn Hget Ht Ha HnG) as Hfree.
  apply decideTableOrWait_sound in Hd.
  destruct Hcase as [(Hne & Hg & _ & Ha2 & Hr2 & Hw2 & _)|(-> & _)].
  - exists table. destruct Hd as [[-> _]|(Hrange & _)]; done.
  - destruct Hd as [[_ Hall]|(Hrange & _)]; [|lia].
    destruct Hfree. by apply Hall.
Qed.

Lemma waiting_inv_receivePayment (n : Z) (s s' : state) :
  may_post s n →
  receivePayment NUMTABLES MAXGROUPS ASSIGNTABLE RECVPAY n s = Ok s' →
  table_inv NUMTABLES s → waiting_inv s → waiting_inv s'.
Proof.
  intros Hpost (s1 & group & Hcrit & Hnext & Hcase)%receivePayment_inv
    Htab Hinv.
  pose proof Hcrit as
    (t & Hget & Ht & Hr & HnG & _ & _ & Ha & Hr1 & Hw1 & _)
      %receivePayment_critical_inv.
  destruct (may_post_record _ _ Hpost Hr) as (old & Hold & Hnw).
  destruct Hpost as [Hn _].
  assert (waiting_inv s1) as Hinv1.
  { unfold waiting_inv, waitingGroups in *. rewrite HnG, Hr1, Hw1.
    pose proof (count_WAIT_record _ _ _ _ DONE Hn Hold) as Hc.
    rewrite Hnw in Hc. change (is_WAIT DONE) with 0%nat in Hc. lia. }
  destruct Hcase as [[_ ->]|(Hg & s2 & Hprov & Hdecr)]; [done|].
  destruct (receivePayment_reassigns _ _ _ _ _ Htab Hn Hcrit Hprov)
    as (table & _ & _ & _ & Hr2 & Hw2).
  apply decideNextGroup_sound in Hnext as [[-> _]|(Hrange & Hwait & _)];
    [done|].
  pose proof Hprov as (_ & _ & _ & HnG2 & _)%provideTableOrWaitingRoom_inv.
  apply decr_groupsWaiting_Ok in Hdecr as [_ ->].
  unfold waiting_inv, waitingGroups in *. cbn. rewrite HnG2, Hr2, Hw2.
  pose proof (count_WAIT_record _ _ _ _ ATTABLE Hrange Hwait) as Hc.
  change (is_WAIT ATTABLE) with 0%nat in Hc.
  change (is_WAIT WAIT) with 1%nat in Hc. lia.
Qed.

Lemma invariants_served (s s' : state) :
  served NUMTABLES MAXGROUPS WAIT_FOR_REQUEST ASSIGNTABLE RECVPAY s s' →
  table_inv NUMTABLES s ∧ waiting_inv s →
  table_inv NUMTABLES s' ∧ waiting_inv s'.
Proof.
  intros [r s1|n s1 s2 Hpost Hprov|n s1 s2 Hpost Hpay] [Htab Hinv].
  - done.
  - split.
    + by eapply table_inv_provideTableOrWaitingRoom.
    + by eapply waiting_inv_provideTableOrWaitingRoom.
  - split.
    + by eapply table_inv_receivePayment.
    + by eapply waiting_inv_receivePayment.
Qed.

Lemma invariants_quiescent (s0 s : state) :
  quiescent NUMTABLES MAXGROUPS WAIT_FOR_REQUEST ASSIGNTABLE RECVPAY s0 s →
  table_inv NUMTABLES s0 ∧ waiting_inv s0 →
  table_inv NUMTABLES s ∧ waiting_inv s.
Proof.
  induction 1 as [|s s' _ IH Hstep]; intros H0; [done|].
  eapply invariants_served; [done | by apply IH].
Qed.

Lemma waiting_inv_initialState (nG stat0 : Z) :
  waiting_inv (initialState MAXGROUPS nG stat0).
Proof.
  unfold waiting_inv, waitingGroups. cbn. rewrite take_replicate.
  by rewrite count_WAIT_replicate.
Qed.

End WaitingInvariant.

(** ** The loop of [main] *)

Section MainLoop.

Variables NUMTABLES MAXGROUPS : Z.
Variables WAIT_FOR_REQUEST ASSIGNTABLE RECVPAY : Z.
Variables TABLEREQ BILLREQ : Z.

Lemma reachable_trans (s0 s1 s2 : state) :
  reachable NUMTABLES MAXGROUPS WAIT_FOR_REQUEST ASSIGNTABLE RECVPAY s0 s1 →
  reachable NUMTABLES MAXGROUPS WAIT_FOR_REQUEST ASSIGNTABLE RECVPAY s1 s2 →
  reachable NUMTABLES MAXGROUPS WAIT_FOR_REQUEST ASSIGNTABLE RECVPAY s0 s2.
Proof.
  intros H01 H12. induction H12 as [|s s' _ IH Hstep]; [done|].
  by eapply reachable_step.
Qed.

(** A table request is passed on to [provideTableOrWaitingRoom]. *)
Lemma serve_TABLEREQ (n : Z) (s : state) :
  serve NUMTABLES MAXGROUPS WAIT_FOR_REQUEST ASSIGNTABLE RECVPAY
    TABLEREQ BILLREQ (postRequest (mkRequest TABLEREQ n)) s =
  provideTableOrWaitingRoom NUMTABLES MAXGROUPS ASSIGNTABLE n
    (waitForGroup WAIT_FOR_REQUEST (postRequest (mkRequest TABLEREQ n)) s).2.
Proof. unfold serve. cbn. by rewrite decide_True. Qed.

(** A bill request is passed on to [receivePayment]. *)
Lemma serve_BILLREQ (n : Z) (s : state) :
  TABLEREQ ≠ BILLREQ →
  serve NUMTABLES MAXGROUPS WAIT_FOR_REQUEST ASSIGNTABLE RECVPAY
    TABLEREQ BILLREQ (postRequest (mkRequest BILLREQ n)) s =
  receivePayment NUMTABLES MAXGROUPS ASSIGNTABLE RECVPAY n
    (waitForGroup WAIT_FOR_REQUEST (postRequest (mkRequest BILLREQ n)) s).2.
Proof.
  intros Hne. unfold serve. cbn.
  rewrite decide_False by congruence. by rewrite decide_True.
Qed.

(** One turn of the loop is made of receptionist operations. *)
Lemma serve_reachable (r : request) (s s' : state) :
  serve NUMTABLES MAXGROUPS WAIT_FOR_REQUEST ASSIGNTABLE RECVPAY
    TABLEREQ BILLREQ (postRequest r) s = Ok s' →
  reachable NUMTABLES MAXGROUPS WAIT_FOR_REQUEST ASSIGNTABLE RECVPAY s s'.
Proof.
  unfold serve.
  destruct (waitForGroup WAIT_FOR_REQUEST (postRequest r) s) as [req s1] eqn:Hw.
  assert (reachable NUMTABLES MAXGROUPS WAIT_FOR_REQUEST ASSIGNTABLE RECVPAY
            s s1) as H1.
  { eapply reachable_step; [apply reachable_start|].
    replace s1 with (waitForGroup WAIT_FOR_REQUEST (postRequest r) s).2
      by (by rewrite Hw).
    apply step_waitForGroup. }
  repeat case_decide; intros Hrun.
  - eapply reachable_step; [exact H1|].
    by eapply step_provideTableOrWaitingRoom.
  - eapply reachable_step; [exact H1|]. by eapply step_receivePayment.
  - by injection Hrun as <-.
Qed.

Lemma lifeCycle_loop_reachable (posts : nat → request) (k nReq : nat)
    (s s' : state) :
  lifeCycle_loop NUMTABLES MAXGROUPS WAIT_FOR_REQUEST ASSIGNTABLE RECVPAY
    TABLEREQ BILLREQ k (λ i, postRequest (posts i)) nReq s = Ok s' →
  reachable NUMTABLES MAXGROUPS WAIT_FOR_REQUEST ASSIGNTABLE RECVPAY s s'.
Proof.
  revert nReq s. induction k as [|k IH]; intros nReq s Hrun.
  - injection Hrun as <-. apply reachable_start.
  - cbn -[serve] in Hrun.
    destruct (serve _ _ _ _ _ _ _ _ s) as [s1|e] eqn:Hs; [|done].
    eapply reachable_trans; [by eapply serve_reachable | by eapply IH].
Qed.

(** A turn of the loop for a request that follows the protocol of the
    groups is made of operations for a group that may post. *)
Lemma serve_quiescent (r : request) (s s' : state) :
  TABLEREQ ≠ BILLREQ →
  follows_protocol TABLEREQ BILLREQ s r →
  serve NUMTABLES MAXGROUPS WAIT_FOR_REQUEST ASSIGNTABLE RECVPAY
    TABLEREQ BILLREQ (postRequest r) s = Ok s' →
  quiescent NUMTABLES MAXGROUPS WAIT_FOR_REQUEST ASSIGNTABLE RECVPAY s s'.
Proof.
  intros Hne [Hn Hcase] Hrun. destruct r as [ty n]. cbn in Hn, Hcase.
  set (s1 := (waitForGroup WAIT_FOR_REQUEST (postRequest (mkRequest ty n))
                s).2).
  assert (quiescent NUMTABLES MAXGROUPS WAIT_FOR_REQUEST ASSIGNTABLE RECVPAY
            s s1) as H1.
  { eapply quiescent_step; [apply quiescent_start|].
    apply served_waitForGroup. }
  assert (may_post s1 n) as Hpost.
  { split; [exact Hn|]. cbn.
    destruct Hcase as [[_ ->]|[_ ->]]; discriminate. }
  destruct Hcase as [[-> _]|[-> _]].
  - rewrite serve_TABLEREQ in Hrun.
    eapply quiescent_step; [exact H1|].
    by eapply served_provideTableOrWaitingRoom.
  - rewrite serve_BILLREQ in Hrun by done.
    eapply quiescent_step; [exact H1|]. by eapply served_receivePayment.
Qed.

(** Table uniqueness holds when [main] leaves its loop. *)
Lemma receptionist_table_inv (posts : nat → request) (s s' : state) :
  table_inv NUMTABLES s →
  receptionist NUMTABLES MAXGROUPS WAIT_FOR_REQUEST ASSIGNTABLE RECVPAY
    TABLEREQ BILLREQ (λ i, postRequest (posts i)) s = Ok s' →
  table_inv NUMTABLES s'.
Proof.
  intros Hinv Hrun. unfold receptionist in Hrun. step_bind Hrun.
  step_bind Hrun. apply lifeCycle_loop_reachable in Hrun.
  induction Hrun as [|s1 s2 _ IH Hstep]; [done|].
  by eapply table_inv_step.
Qed.

End MainLoop.

(** ** The properties of the specification *)

Section Claims.

Variables NUMTABLES MAXGROUPS : Z.
Variables WAIT_FOR_REQUEST ASSIGNTABLE RECVPAY : Z.

(** C1 (table uniqueness).  Start from a state in which the tables held by
    the groups are tables of the restaurant and pairwise distinct, as in
    the initial state where nobody holds a table.  After any sequence of
    [waitForGroup], [provideTableOrWaitingRoom] and [receivePayment], with
    any arguments, every entry of [assignedTable] of a group that is not
    [-1] lies in [0, NUMTABLES) and no other group has the same entry. *)
Theorem table_uniqueness (s0 s : state) :
  table_inv NUMTABLES s0 →
  reachable NUMTABLES MAXGROUPS WAIT_FOR_REQUEST ASSIGNTABLE RECVPAY s0 s →
  ∀ i t, 0 ≤ i < nGroups (fSt s) →
    aget (assignedTable (fSt s)) i = Ok t → t ≠ -1 →
    0 ≤ t < NUMTABLES ∧
    ∀ j, 0 ≤ j < nGroups (fSt s) →
      aget (assignedTable (fSt s)) j = Ok t → j = i.
Proof.
  intros H0 Hreach. change (table_inv NUMTABLES s).
  induction Hreach as [|s s' _ IH Hstep]; [done|].
  by eapply table_inv_step.
Qed.

(** C2 (waiting-count consistency).  Start from a state in which the tables
    are held uniquely and [groupsWaiting] is the number of groups recorded
    as [WAIT], as in the initial state.  After any sequence of complete
    receptionist operations made for groups that are able to post a request
    (a queued group is blocked and posts nothing), [groupsWaiting] is again
    the number of groups recorded as [WAIT].  In such a state
    [provideTableOrWaitingRoom] adds one to the counter exactly when no
    table is free, and then records the group as [WAIT]; [receivePayment]
    takes one off exactly when some group is queued, and then that group
    has a table and is recorded as [ATTABLE]. *)
Theorem waiting_count_consistent (s0 s : state) :
  table_inv NUMTABLES s0 → waiting_inv s0 →
  quiescent NUMTABLES MAXGROUPS WAIT_FOR_REQUEST ASSIGNTABLE RECVPAY s0 s →
  groupsWaiting (fSt s) = waitingGroups s ∧
  (∀ n s',
     provideTableOrWaitingRoom NUMTABLES MAXGROUPS ASSIGNTABLE n s = Ok s' →
     ∃ table, decideTableOrWait NUMTABLES s n = Ok table ∧
       ((table = -1 ∧
         groupsWaiting (fSt s') = groupsWaiting (fSt s) + 1 ∧
         aget (groupRecord s') n = Ok WAIT) ∨
        (table ≠ -1 ∧ groupsWaiting (fSt s') = groupsWaiting (fSt s)))) ∧
  (∀ n s', may_post s n →
     receivePayment NUMTABLES MAXGROUPS ASSIGNTABLE RECVPAY n s = Ok s' →
     ∃ s1 group,
       receivePayment_critical NUMTABLES RECVPAY n s = Ok s1 ∧
       decideNextGroup s1 = Ok group ∧
       ((group = -1 ∧ groupsWaiting (fSt s') = groupsWaiting (fSt s)) ∨
        (group ≠ -1 ∧
         groupsWaiting (fSt s') = groupsWaiting (fSt s) - 1 ∧
         aget (groupRecord s') group = Ok ATTABLE ∧
         ∃ table, 0 ≤ table < NUMTABLES ∧
           aget (assignedTable (fSt s')) group = Ok table))).
Proof.
  intros Htab0 Hinv0 Hq.
  destruct (invariants_quiescent _ _ _ _ _ _ _ Hq (conj Htab0 Hinv0))
    as [Htab Hinv].
  split; [exact Hinv|]. split.
  - intros n s'
      (table & Hd & Hr & _ & _ & _ & Hcase)%provideTableOrWaitingRoom_inv.
    exists table. split; [done|].
    destruct Hcase as [(Ht & _ & _ & _ & _ & Hw & _)|(-> & _ & _ & Hr' & Hw & _)].
    + right. done.
    + left. split; [done|]. split; [done|]. rewrite Hr'.
      by apply aget_insert_eq.
  - intros n s' [Hn _] (s1 & group & Hcrit & Hnext & Hcase)%receivePayment_inv.
    exists s1, group. split; [done|]. split; [done|].
    pose proof Hcrit as (_ & _ & _ & _ & _ & _ & _ & _ & _ & Hw1 & _)
      %receivePayment_critical_inv.
    destruct Hcase as [[-> ->]|(Hg & s2 & Hprov & Hdecr)]; [by left|].
    right. split; [done|].
    destruct (receivePayment_reassigns _ _ _ _ _ _ _ _ _ Htab Hn Hcrit Hprov)
      as (table & Ht & Ha2 & Hb & Hr2 & Hw2).
    pose proof Hprov as (_ & _ & Hrb & _)%provideTableOrWaitingRoom_inv.
    apply decr_groupsWaiting_Ok in Hdecr as [_ ->]. cbn.
    split; [lia|]. split.
    + rewrite Hr2. by apply aget_insert_eq.
    + exists table. split; [done|]. rewrite Ha2. by apply aget_insert_eq.
Qed.

(** C3 (postcondition of [provideTableOrWaitingRoom]).  Let [n] be a group
    index within the arrays and [table] the answer of [decideTableOrWait].
    If [table] is not [-1] the operation ends with [assignedTable[n]] set
    to [table], [groupRecord[n]] set to [ATTABLE], the counter unchanged
    and [waitForTable[n]] released between the acquisition and the release
    of [mutex].  If [table] is [-1] (and the counter can still grow) it
    ends with [groupsWaiting] one higher, [groupRecord[n]] set to [WAIT],
    the assignments unchanged and no semaphore released but [mutex]. *)
Theorem provideTableOrWaitingRoom_post (n : Z) (s : state) (table : Z) :
  well_sized MAXGROUPS s →
  0 ≤ n < MAXGROUPS →
  decideTableOrWait NUMTABLES s n = Ok table →
  (table ≠ -1 →
   ∃ s', provideTableOrWaitingRoom NUMTABLES MAXGROUPS ASSIGNTABLE n s
           = Ok s' ∧
     aget (assignedTable (fSt s')) n = Ok table ∧
     aget (groupRecord s') n = Ok ATTABLE ∧
     assignedTable (fSt s') =
       <[Z.to_nat n := table]> (assignedTable (fSt s)) ∧
     groupRecord s' = <[Z.to_nat n := ATTABLE]> (groupRecord s) ∧
     groupsWaiting (fSt s') = groupsWaiting (fSt s) ∧
     log s' = log s ++
       [semDown mutex;
        saveState (fSt (set_receptionistStat ASSIGNTABLE s));
        semUp (waitForTable n);
        semUp mutex]) ∧
  (table = -1 → groupsWaiting (fSt s) < INT_MAX →
   ∃ s', provideTableOrWaitingRoom NUMTABLES MAXGROUPS ASSIGNTABLE n s
           = Ok s' ∧
     groupsWaiting (fSt s') = groupsWaiting (fSt s) + 1 ∧
     aget (groupRecord s') n = Ok WAIT ∧
     assignedTable (fSt s') = assignedTable (fSt s) ∧
     groupRecord s' = <[Z.to_nat n := WAIT]> (groupRecord s) ∧
     log s' = log s ++
       [semDown mutex;
        saveState (fSt (set_receptionistStat ASSIGNTABLE s));
        semUp mutex]).
Proof.
  intros (Ha & Hr & HnG) Hn Hd. split.
  - intros Ht.
    destruct (provideTableOrWaitingRoom_runs NUMTABLES MAXGROUPS ASSIGNTABLE
                n s table) as [s' Hrun]; [done | lia | intros; lia | done |].
    exists s'. split; [done|].
    apply provideTableOrWaitingRoom_inv in Hrun
      as (table' & Hd' & _ & _ & _ & _ & Hcase).
    assert (table' = table) as -> by congruence.
    destruct Hcase as [(_ & _ & _ & Ha' & Hr' & Hw & Hlog)|(-> & _)]; [|done].
    rewrite Ha', Hr'. repeat split; try done.
    + apply aget_insert_eq. lia.
    + apply aget_insert_eq. lia.
  - intros -> Hw.
    destruct (provideTableOrWaitingRoom_runs NUMTABLES MAXGROUPS ASSIGNTABLE
                n s (-1)) as [s' Hrun]; [done | lia | done | done |].
    exists s'. split; [done|].
    apply provideTableOrWaitingRoom_inv in Hrun
      as (table' & Hd' & _ & _ & _ & _ & Hcase).
    assert (table' = -1) as -> by congruence.
    destruct Hcase as [(Hne & _)|(_ & _ & Ha' & Hr' & Hw' & Hlog)]; [done|].
    rewrite Hr'. repeat split; try done.
    apply aget_insert_eq. lia.
Qed.

(** C4 (postcondition of [receivePayment]).  Let group [n] hold table [t].
    The critical region releases [tableDone[t]], sets [assignedTable[n]]
    to [-1] and [groupRecord[n]] to [DONE], and leaves the counter alone.
    After [mutex] has been released: if [decideNextGroup] finds nobody the
    operation ends there; if it finds group [g] the operation goes on with
    [provideTableOrWaitingRoom g] and ends with [groupsWaiting] one lower
    than that call left it, group [n] still without table and [DONE]. *)
Theorem receivePayment_post (n : Z) (s : state) (t : Z) :
  aget (assignedTable (fSt s)) n = Ok t →
  0 ≤ t < NUMTABLES →
  n < Z.of_nat (length (groupRecord s)) →
  ∃ s1, receivePayment_critical NUMTABLES RECVPAY n s = Ok s1 ∧
    log s1 = log s ++
      [semDown mutex;
       saveState (fSt (set_receptionistStat RECVPAY s));
       semUp (tableDone t);
       saveState (fSt s1);
       semUp mutex] ∧
    aget (assignedTable (fSt s1)) n = Ok (-1) ∧
    aget (groupRecord s1) n = Ok DONE ∧
    assignedTable (fSt s1) = <[Z.to_nat n := -1]> (assignedTable (fSt s)) ∧
    groupRecord s1 = <[Z.to_nat n := DONE]> (groupRecord s) ∧
    groupsWaiting (fSt s1) = groupsWaiting (fSt s) ∧
    (decideNextGroup s1 = Ok (-1) →
     receivePayment NUMTABLES MAXGROUPS ASSIGNTABLE RECVPAY n s = Ok s1) ∧
    (∀ g, decideNextGroup s1 = Ok g → g ≠ -1 →
     receivePayment NUMTABLES MAXGROUPS ASSIGNTABLE RECVPAY n s =
       (provideTableOrWaitingRoom NUMTABLES MAXGROUPS ASSIGNTABLE g s1
        ≫= decr_groupsWaiting) ∧
     ∀ s', receivePayment NUMTABLES MAXGROUPS ASSIGNTABLE RECVPAY n s
             = Ok s' →
       ∃ s2, provideTableOrWaitingRoom NUMTABLES MAXGROUPS ASSIGNTABLE g s1
               = Ok s2 ∧
         groupsWaiting (fSt s') = groupsWaiting (fSt s2) - 1 ∧
         assignedTable (fSt s') = assignedTable (fSt s2) ∧
         groupRecord s' = groupRecord s2 ∧
         log s' = log s2 ∧
         aget (assignedTable (fSt s')) n = Ok (-1) ∧
         aget (groupRecord s') n = Ok DONE).
Proof.
  intros Hget Ht Hr. pose proof (aget_bound _ _ _ Hget) as Hn.
  destruct (receivePayment_critical_runs NUMTABLES RECVPAY n s t)
    as [s1 Hcrit]; [done..|].
  exists s1. split; [done|].
  pose proof Hcrit as (t' & Hget' & _ & _ & _ & _ & _ & Ha & Hr1 & Hw & Hlog)
    %receivePayment_critical_inv.
  assert (t' = t) as -> by congruence.
  assert (aget (assignedTable (fSt s1)) n = Ok (-1)) as Han.
  { rewrite Ha. by apply aget_insert_eq. }
  assert (aget (groupRecord s1) n = Ok DONE) as Hrn.
  { rewrite Hr1. apply aget_insert_eq. lia. }
  do 6 (split; [done|]). split.
  - by apply receivePayment_no_queue.
  - intros g Hnext Hg. split.
    { unfold receivePayment. rewrite Hcrit. cbn. rewrite Hnext. cbn.
      by rewrite decide_True. }
    intros s' (s1' & g' & Hcrit' & Hnext' & Hcase)%receivePayment_inv.
    assert (s1' = s1) as -> by congruence.
    assert (g' = g) as -> by congruence.
    destruct Hcase as [[-> _]|(_ & s2 & Hprov & Hdecr)]; [done|].
    exists s2. split; [done|].
    apply decr_groupsWaiting_Ok in Hdecr as [_ ->]. cbn.
    do 4 (split; [done|]).
    assert (g ≠ n) as Hgn.
    { apply decideNextGroup_sound in Hnext as [[-> _]|(_ & Hwait & _)];
        [done|]. intros ->. rewrite Hrn in Hwait. done. }
    apply provideTableOrWaitingRoom_inv in Hprov
      as (table & _ & Hgb & _ & _ & _ & Hcase).
    destruct Hcase as [(_ & _ & _ & -> & -> & _)|(_ & _ & -> & -> & _)];
      split; rewrite ?aget_insert_ne by lia; done.
Qed.

(** C5 (the request slot).  [waitForGroup] returns the request that is in
    the shared slot when the receptionist wakes up; when a group has posted
    [r] meanwhile, it returns [r].  It leaves the empty request, with both
    fields [-1], in the slot, and an empty slot stays empty through the
    other receptionist code: [provideTableOrWaitingRoom], [receivePayment]
    and the first critical region of the next [waitForGroup]. *)
Theorem waitForGroup_post (env : state → state) (s : state) (r : request) :
  (waitForGroup WAIT_FOR_REQUEST env s).1 =
    receptionistRequest (fSt (env (waitForGroup_announce WAIT_FOR_REQUEST s))) ∧
  (waitForGroup WAIT_FOR_REQUEST (postRequest r) s).1 = r ∧
  receptionistRequest (fSt (waitForGroup WAIT_FOR_REQUEST env s).2) =
    mkRequest (-1) (-1) ∧
  (∀ n s1 s2,
     provideTableOrWaitingRoom NUMTABLES MAXGROUPS ASSIGNTABLE n s1 = Ok s2 →
     receptionistRequest (fSt s2) = receptionistRequest (fSt s1)) ∧
  (∀ n s1 s2,
     receivePayment NUMTABLES MAXGROUPS ASSIGNTABLE RECVPAY n s1 = Ok s2 →
     receptionistRequest (fSt s2) = receptionistRequest (fSt s1)) ∧
  (∀ s1,
     receptionistRequest (fSt (waitForGroup_announce WAIT_FOR_REQUEST s1)) =
       receptionistRequest (fSt s1)).
Proof.
  split; [done|]. split; [done|]. split; [done|]. split; [|split; [|done]].
  - by intros n s1 s2 (_ & _ & _ & _ & Hreq & _)%provideTableOrWaitingRoom_inv.
  - intros n s1 s2 (s3 & g & Hcrit & _ & Hcase)%receivePayment_inv.
    apply receivePayment_critical_inv in Hcrit
      as (_ & _ & _ & _ & _ & Hreq & _).
    destruct Hcase as [[_ ->]|(_ & s4 & Hprov & Hdecr)]; [done|].
    apply provideTableOrWaitingRoom_inv in Hprov
      as (_ & _ & _ & _ & Hreq' & _).
    apply decr_groupsWaiting_Ok in Hdecr as [_ ->]. cbn. congruence.
Qed.

(** C6 ([decideTableOrWait] finds the first free table).  It changes
    nothing, being a function of the state.  When the array holds all the
    groups it returns a value [t], and [t] is the smallest table index in
    [0, NUMTABLES) that is no group's entry of [assignedTable], or [-1]
    when every table index is some group's entry. *)
Theorem decideTableOrWait_first_free (s : state) (n : Z) :
  nGroups (fSt s) ≤ Z.of_nat (length (assignedTable (fSt s))) →
  ∃ t, decideTableOrWait NUMTABLES s n = Ok t ∧
    ((t = -1 ∧
      ∀ k, 0 ≤ k < NUMTABLES →
        ∃ i, 0 ≤ i < nGroups (fSt s) ∧ aget (assignedTable (fSt s)) i = Ok k) ∨
     (0 ≤ t < NUMTABLES ∧
      (¬ ∃ i, 0 ≤ i < nGroups (fSt s) ∧
              aget (assignedTable (fSt s)) i = Ok t) ∧
      ∀ k, 0 ≤ k < t →
        ∃ i, 0 ≤ i < nGroups (fSt s) ∧ aget (assignedTable (fSt s)) i = Ok k)).
Proof.
  intros Hlen. destruct (decideTableOrWait_total NUMTABLES s n Hlen) as [t Ht].
  exists t. split; [done|]. by apply decideTableOrWait_sound in Ht.
Qed.

(** C7 ([decideNextGroup] finds the first waiting group).  When
    [groupRecord] holds all the groups it returns a value [g], and [g] is
    the smallest group index in [0, nGroups) recorded as [WAIT], or [-1]
    when no group is recorded as [WAIT]. *)
Theorem decideNextGroup_first_waiting (s : state) :
  nGroups (fSt s) ≤ Z.of_nat (length (groupRecord s)) →
  ∃ g, decideNextGroup s = Ok g ∧
    ((g = -1 ∧
      ∀ i, 0 ≤ i < nGroups (fSt s) →
        ∃ v, aget (groupRecord s) i = Ok v ∧ v ≠ WAIT) ∨
     (0 ≤ g < nGroups (fSt s) ∧
      aget (groupRecord s) g = Ok WAIT ∧
      ∀ i, 0 ≤ i < g → ∃ v, aget (groupRecord s) i = Ok v ∧ v ≠ WAIT)).
Proof.
  intros Hlen. destruct (decideNextGroup_total s Hlen) as [g Hg].
  exists g. split; [done|]. by apply decideNextGroup_sound in Hg.
Qed.

(** C9 (the precondition of [receivePayment]).  In a well-sized state whose
    counter is inside the range of [int], for a group index [n] within
    [assignedTable], [receivePayment n] runs to its end exactly when
    [assignedTable[n]] lies in [0, NUMTABLES).  Otherwise, and so for a
    group without table ([-1]), the access to [tableDone] is out of
    bounds. *)
Theorem receivePayment_precondition (n : Z) (s : state) (t : Z) :
  well_sized MAXGROUPS s →
  INT_MIN < groupsWaiting (fSt s) < INT_MAX →
  aget (assignedTable (fSt s)) n = Ok t →
  ((∃ s', receivePayment NUMTABLES MAXGROUPS ASSIGNTABLE RECVPAY n s = Ok s')
   ↔ 0 ≤ t < NUMTABLES) ∧
  (¬ (0 ≤ t < NUMTABLES) →
   receivePayment NUMTABLES MAXGROUPS ASSIGNTABLE RECVPAY n s
     = Fault OutOfBounds) ∧
  (t = -1 →
   receivePayment NUMTABLES MAXGROUPS ASSIGNTABLE RECVPAY n s
     = Fault OutOfBounds).
Proof.
  intros (Ha & Hr & HnG) Hw Hget.
  assert (¬ (0 ≤ t < NUMTABLES) →
          receivePayment NUMTABLES MAXGROUPS ASSIGNTABLE RECVPAY n s
            = Fault OutOfBounds) as Hfault.
  { intros Ht. unfold receivePayment.
    by rewrite (receivePayment_critical_faults _ _ _ _ _ Hget Ht). }
  split; [|split; [done | intros ->; apply Hfault; lia]].
  split.
  - intros [s' Hrun]. destruct (decide (0 ≤ t < NUMTABLES)) as [|Ht]; [done|].
    rewrite (Hfault Ht) in Hrun. done.
  - intros Ht. pose proof (aget_bound _ _ _ Hget) as Hn.
    destruct (receivePayment_critical_runs NUMTABLES RECVPAY n s t)
      as [s1 Hcrit]; [done | done | lia |].
    pose proof Hcrit as (_ & _ & _ & _ & HnG1 & _ & _ & Ha1 & Hr1 & Hw1 & _)
      %receivePayment_critical_inv.
    assert (Z.of_nat (length (assignedTable (fSt s1))) = MAXGROUPS) as Hla.
    { by rewrite Ha1, length_insert. }
    assert (Z.of_nat (length (groupRecord s1)) = MAXGROUPS) as Hlr.
    { by rewrite Hr1, length_insert. }
    destruct (decideNextGroup_total s1) as [g Hg]; [lia|].
    unfold receivePayment. rewrite Hcrit. cbn. rewrite Hg. cbn.
    case_decide as Hne; [|by eexists].
    pose proof Hg as [[-> _]|(Hrange & _)]%decideNextGroup_sound; [done|].
    destruct (decideTableOrWait_total NUMTABLES s1 g) as [table Hd]; [lia|].
    destruct (provideTableOrWaitingRoom_runs NUMTABLES MAXGROUPS ASSIGNTABLE
                g s1 table) as [s2 Hprov];
      [done | lia | intros; lia | intros; lia |].
    rewrite Hprov. cbn.
    apply provideTableOrWaitingRoom_inv in Hprov
      as (tb & _ & _ & _ & _ & _ & Hcase).
    assert (INT_MIN < groupsWaiting (fSt s2)) as Hw2.
    { destruct Hcase as [(_ & _ & _ & _ & _ & -> & _)|(_ & _ & _ & _ & -> & _)];
        lia. }
    unfold decr_groupsWaiting, int_decr. rewrite decide_True by done.
    cbn. by eexists.
Qed.

(** C10 (the decision does not depend on the requester).  In every state
    [decideTableOrWait] gives the same answer to any two groups; and two
    runs, for any two groups, in states with the same number of groups and
    the same assignments give the same answer, whatever else differs. *)
Theorem decideTableOrWait_requester_independent (s s' : state) (m n : Z) :
  decideTableOrWait NUMTABLES s m = decideTableOrWait NUMTABLES s n ∧
  (nGroups (fSt s) = nGroups (fSt s') →
   assignedTable (fSt s) = assignedTable (fSt s') →
   decideTableOrWait NUMTABLES s m = decideTableOrWait NUMTABLES s' n).
Proof.
  split; [reflexivity|]. intros HnG Ha.
  unfold decideTableOrWait. by rewrite HnG, Ha.
Qed.

End Claims.

(** ** Scenario A *)

Lemma initialState_two (MAXGROUPS nG stat0 : Z) :
  2 ≤ MAXGROUPS →
  ∃ m, MAXGROUPS = Z.of_nat m + 2 ∧
    initialState MAXGROUPS nG stat0 =
    mkState
      (mkFULL_STAT (mkSTAT stat0) nG (-1 :: -1 :: replicate m (-1)) 0
         noRequest)
      (0 :: 0 :: replicate m 0) [].
Proof.
  intros HM. exists (Z.to_nat MAXGROUPS - 2)%nat. split; [lia|].
  unfold initialState.
  by replace (Z.to_nat MAXGROUPS)
    with (S (S (Z.to_nat MAXGROUPS - 2))) at 1 2 by lia.
Qed.

Ltac in_bounds :=
  cbn [fSt assignedTable groupRecord groupsWaiting length];
  rewrite ?length_insert; cbn [length]; rewrite ?length_replicate;
  unfold INT_MAX, INT_MIN; lia.

(** C8 (scenario A).  Two groups, one table, arrays of any size that holds
    two groups.  From the initial state, [provideTableOrWaitingRoom 0]
    gives table 0 to group 0, records it as [ATTABLE] and releases its
    [waitForTable]; [provideTableOrWaitingRoom 1] finds no table, records
    group 1 as [WAIT] and sets the counter to 1; [receivePayment 0]
    releases [tableDone[0]], takes the table from group 0, records it as
    [DONE], then gives table 0 to group 1, records it as [ATTABLE],
    releases its [waitForTable] and sets the counter back to 0. *)
Theorem scenario_A (MAXGROUPS stat0 ASSIGNTABLE RECVPAY : Z) :
  2 ≤ MAXGROUPS →
  ∃ s1 s2 s3,
    provideTableOrWaitingRoom 1 MAXGROUPS ASSIGNTABLE 0
      (initialState MAXGROUPS 2 stat0) = Ok s1 ∧
    provideTableOrWaitingRoom 1 MAXGROUPS ASSIGNTABLE 1 s1 = Ok s2 ∧
    receivePayment 1 MAXGROUPS ASSIGNTABLE RECVPAY 0 s2 = Ok s3 ∧
    take 2 (assignedTable (fSt s1)) = [0; -1] ∧
    take 2 (groupRecord s1) = [ATTABLE; TOARRIVE] ∧
    groupsWaiting (fSt s1) = 0 ∧
    released (log s1) = [waitForTable 0; mutex] ∧
    take 2 (assignedTable (fSt s2)) = [0; -1] ∧
    take 2 (groupRecord s2) = [ATTABLE; WAIT] ∧
    groupsWaiting (fSt s2) = 1 ∧
    released (log s2) = released (log s1) ++ [mutex] ∧
    take 2 (assignedTable (fSt s3)) = [-1; 0] ∧
    take 2 (groupRecord s3) = [DONE; ATTABLE] ∧
    groupsWaiting (fSt s3) = 0 ∧
    released (log s3) =
      released (log s2) ++ [tableDone 0; mutex; waitForTable 1; mutex].
Proof.
  intros HM.
  destruct (initialState_two MAXGROUPS 2 stat0 HM) as (m & Hm & ->).
  eexists _, _, _. split.
  { etrans.
    - apply provideTableOrWaitingRoom_seats with (table := 0);
        [reflexivity | done | in_bounds..].
    - cbn. reflexivity. }
  split.
  { etrans.
    - apply provideTableOrWaitingRoom_queues; [reflexivity | in_bounds..].
    - cbn. reflexivity. }
  split.
  { etrans.
    - eapply receivePayment_serves_queue with (group := 1).
      + etrans.
        * apply receivePayment_critical_frees with (t := 0);
            [reflexivity | lia | in_bounds].
        * cbn. reflexivity.
      + reflexivity.
      + done.
      + etrans.
        * apply provideTableOrWaitingRoom_seats with (table := 0);
            [reflexivity | done | in_bounds..].
        * cbn. reflexivity.
      + in_bounds.
    - cbn. reflexivity. }
  repeat (split; [reflexivity|]). reflexivity.
Qed.

(** ** The theorems at the states of scenario A *)

Lemma state_queued_table_inv : table_inv 1 state_queued.
Proof.
  intros i t Hi Hget Ht. change (0 ≤ i < 2) in Hi.
  assert (i = 0 ∨ i = 1) as [-> | ->] by lia.
  - injection Hget as <-. split; [lia|]. intros j Hj Hgetj.
    change (0 ≤ j < 2) in Hj.
    assert (j = 0 ∨ j = 1) as [-> | ->] by lia; [done | discriminate Hgetj].
  - injection Hget as <-. done.
Qed.

Lemma state_queued_waiting_inv : waiting_inv state_queued.
Proof. reflexivity. Qed.

Lemma state_queued_well_sized : well_sized 2 state_queued.
Proof. by repeat split. Qed.

Lemma state_queued_pays :
  receivePayment 1 2 1 2 0 state_queued = Ok state_paid.
Proof. reflexivity. Qed.

Lemma table_uniqueness_witness :
  table_inv 1 state_queued ∧
  reachable 1 2 0 1 2 state_queued state_paid ∧
  ∀ i t, 0 ≤ i < nGroups (fSt state_paid) →
    aget (assignedTable (fSt state_paid)) i = Ok t → t ≠ -1 →
    0 ≤ t < 1 ∧
    ∀ j, 0 ≤ j < nGroups (fSt state_paid) →
      aget (assignedTable (fSt state_paid)) j = Ok t → j = i.
Proof.
  assert (reachable 1 2 0 1 2 state_queued state_paid) as Hreach.
  { eapply reachable_step; [apply reachable_start|].
    eapply step_receivePayment. exact state_queued_pays. }
  split; [exact state_queued_table_inv|]. split; [exact Hreach|].
  exact (table_uniqueness 1 2 0 1 2 state_queued state_paid
           state_queued_table_inv Hreach).
Defined.

Lemma waiting_count_consistent_witness :
  table_inv 1 state_queued ∧
  waiting_inv state_queued ∧
  quiescent 1 2 0 1 2 state_queued state_paid ∧
  groupsWaiting (fSt state_paid) = waitingGroups state_paid.
Proof.
  assert (quiescent 1 2 0 1 2 state_queued state_paid) as Hq.
  { eapply quiescent_step; [apply quiescent_start|].
    eapply served_receivePayment; [|exact state_queued_pays].
    split; [done | discriminate]. }
  split; [exact state_queued_table_inv|].
  split; [exact state_queued_waiting_inv|]. split; [exact Hq|].
  exact (proj1 (waiting_count_consistent 1 2 0 1 2 state_queued state_paid
                  state_queued_table_inv state_queued_waiting_inv Hq)).
Defined.

Lemma provideTableOrWaitingRoom_post_witness :
  well_sized 2 state_queued ∧
  0 ≤ 1 < 2 ∧
  decideTableOrWait 1 state_queued 1 = Ok (-1) ∧
  ∃ s', provideTableOrWaitingRoom 1 2 1 1 state_queued = Ok s' ∧
    groupsWaiting (fSt s') = groupsWaiting (fSt state_queued) + 1 ∧
    aget (groupRecord s') 1 = Ok WAIT.
Proof.
  split; [exact state_queued_well_sized|]. split; [lia|].
  split; [reflexivity|].
  destruct (proj2 (provideTableOrWaitingRoom_post 1 2 1 1 state_queued (-1)
                     state_queued_well_sized ltac:(lia) eq_refl)
              eq_refl ltac:(reflexivity))
    as (s' & Hrun & Hw & Hr & _).
  exists s'. done.
Defined.

Lemma receivePayment_post_witness :
  aget (assignedTable (fSt state_queued)) 0 = Ok 0 ∧
  0 ≤ 0 < 1 ∧
  0 < Z.of_nat (length (groupRecord state_queued)) ∧
  ∃ s1, receivePayment_critical 1 2 0 state_queued = Ok s1 ∧
    released (log s1) = [tableDone 0; mutex] ∧
    aget (assignedTable (fSt s1)) 0 = Ok (-1) ∧
    aget (groupRecord s1) 0 = Ok DONE.
Proof.
  split; [reflexivity|]. split; [lia|]. split; [reflexivity|].
  destruct (receivePayment_post 1 2 1 2 0 state_queued 0
              eq_refl ltac:(lia) ltac:(reflexivity))
    as (s1 & Hcrit & Hlog & Ha & Hr & _).
  exists s1. split; [done|]. split; [by rewrite Hlog|]. done.
Defined.

Lemma waitForGroup_post_witness :
  (waitForGroup 0 (postRequest (mkRequest 1 0)) state_queued).1 =
    mkRequest 1 0 ∧
  receptionistRequest
    (fSt (waitForGroup 0 (postRequest (mkRequest 1 0)) state_queued).2) =
    mkRequest (-1) (-1).
Proof.
  destruct (waitForGroup_post 1 2 0 1 2 (postRequest (mkRequest 1 0))
              state_queued (mkRequest 1 0)) as (_ & Hret & Hslot & _).
  split; [exact Hret | exact Hslot].
Defined.

Lemma decideTableOrWait_first_free_witness :
  nGroups (fSt state_paid) ≤
    Z.of_nat (length (assignedTable (fSt state_paid))) ∧
  ∃ t, decideTableOrWait 2 state_paid 0 = Ok t ∧ t = 1.
Proof.
  split; [done|].
  destruct (decideTableOrWait_first_free 2 state_paid 0 ltac:(done))
    as (t & Ht & _).
  exists t. split; [done|]. by injection Ht as <-.
Defined.

Lemma decideNextGroup_first_waiting_witness :
  nGroups (fSt state_queued) ≤ Z.of_nat (length (groupRecord state_queued)) ∧
  ∃ g, decideNextGroup state_queued = Ok g ∧ g = 1.
Proof.
  split; [done|].
  destruct (decideNextGroup_first_waiting state_queued ltac:(done))
    as (g & Hg & _).
  exists g. split; [done|]. by injection Hg as <-.
Defined.

Lemma scenario_A_witness :
  2 ≤ 7 ∧
  ∃ s3,
    ((provideTableOrWaitingRoom 1 7 1 0 (initialState 7 2 0)
      ≫= provideTableOrWaitingRoom 1 7 1 1)
     ≫= receivePayment 1 7 1 2 0) = Ok s3 ∧
    take 2 (assignedTable (fSt s3)) = [-1; 0] ∧
    take 2 (groupRecord s3) = [DONE; ATTABLE] ∧
    groupsWaiting (fSt s3) = 0.
Proof.
  split; [lia|].
  destruct (scenario_A 7 0 1 2 ltac:(lia))
    as (s1 & s2 & s3 & H1 & H2 & H3 & _ & _ & _ & _ & _ & _ & _ & _
        & Ha & Hr & Hw & _).
  exists s3. rewrite H1. cbn. rewrite H2. cbn. done.
Defined.

Lemma receivePayment_precondition_witness :
  well_sized 2 state_queued ∧
  INT_MIN < groupsWaiting (fSt state_queued) < INT_MAX ∧
  aget (assignedTable (fSt state_queued)) 1 = Ok (-1) ∧
  receivePayment 1 2 1 2 1 state_queued = Fault OutOfBounds.
Proof.
  split; [exact state_queued_well_sized|]. split; [done|].
  split; [reflexivity|].
  exact (proj2 (proj2 (receivePayment_precondition 1 2 1 2 1 state_queued (-1)
                         state_queued_well_sized ltac:(done) eq_refl))
           eq_refl).
Defined.

Lemma decideTableOrWait_requester_independent_witness :
  nGroups (fSt state_queued) = nGroups (fSt state_paid) ∧
  assignedTable (fSt state_queued) =
    assignedTable (fSt (set_assignedTable [0; -1] state_paid)) ∧
  decideTableOrWait 1 state_queued 0 =
    decideTableOrWait 1 (set_assignedTable [0; -1] state_paid) 1.
Proof.
  split; [reflexivity|]. split; [reflexivity|].
  exact (proj2 (decideTableOrWait_requester_independent 1 state_queued
                  (set_assignedTable [0; -1] state_paid) 0 1)
           eq_refl eq_refl).
Defined.

(** The requester matters for the count: a table request served for a
    group that is queued already counts that group twice. *)
Remark queued_group_asks_again :
  ∃ s', provideTableOrWaitingRoom 1 2 1 1 state_queued = Ok s' ∧
    groupsWaiting (fSt s') = 2 ∧ waitingGroups s' = 1.
Proof. eexists. split; [reflexivity|]. split; reflexivity. Qed.

(** ** What the operations leave alone *)

Section Frame.

Variables NUMTABLES MAXGROUPS : Z.
Variables WAIT_FOR_REQUEST ASSIGNTABLE RECVPAY : Z.

Lemma provideTableOrWaitingRoom_sizes (n : Z) (s s' : state) :
  provideTableOrWaitingRoom NUMTABLES MAXGROUPS ASSIGNTABLE n s = Ok s' →
  nGroups (fSt s') = nGroups (fSt s) ∧
  length (assignedTable (fSt s')) = length (assignedTable (fSt s)) ∧
  length (groupRecord s') = length (groupRecord s).
Proof.
  intros (table & _ & _ & HnG & _ & _ & Hcase)%provideTableOrWaitingRoom_inv.
  split; [done|].
  destruct Hcase as [(_ & _ & _ & -> & -> & _)|(_ & _ & -> & -> & _)];
    by rewrite ?length_insert.
Qed.

Lemma receivePayment_sizes (n : Z) (s s' : state) :
  receivePayment NUMTABLES MAXGROUPS ASSIGNTABLE RECVPAY n s = Ok s' →
  nGroups (fSt s') = nGroups (fSt s) ∧
  length (assignedTable (fSt s')) = length (assignedTable (fSt s)) ∧
  length (groupRecord s') = length (groupRecord s).
Proof.
  intros (s1 & group & Hcrit & _ & Hcase)%receivePayment_inv.
  apply receivePayment_critical_inv in Hcrit
    as (t & _ & _ & _ & HnG & _ & _ & Ha & Hr & _).
  assert (nGroups (fSt s1) = nGroups (fSt s) ∧
          length (assignedTable (fSt s1)) = length (assignedTable (fSt s)) ∧
          length (groupRecord s1) = length (groupRecord s)) as H1.
  { by rewrite HnG, Ha, Hr, !length_insert. }
  destruct Hcase as [[_ ->]|(_ & s2 & Hprov & Hdecr)]; [done|].
  apply provideTableOrWaitingRoom_sizes in Hprov.
  apply decr_groupsWaiting_Ok in Hdecr as [_ ->]. cbn.
  destruct Hprov as (-> & -> & ->). exact H1.
Qed.

Lemma step_sizes (s s' : state) :
  step NUMTABLES MAXGROUPS WAIT_FOR_REQUEST ASSIGNTABLE RECVPAY s s' →
  nGroups (fSt s') = nGroups (fSt s) ∧
  length (assignedTable (fSt s')) = length (assignedTable (fSt s)) ∧
  length (groupRecord s') = length (groupRecord s).
Proof.
  intros [r s1|n s1 s2 Hprov|n s1 s2 Hpay].
  - done.
  - by eapply provideTableOrWaitingRoom_sizes.
  - by eapply receivePayment_sizes.
Qed.

(** The operations never change the number of groups nor the size of an
    array: a well-sized state stays well-sized. *)
Theorem well_sized_reachable (s0 s : state) :
  well_sized MAXGROUPS s0 →
  reachable NUMTABLES MAXGROUPS WAIT_FOR_REQUEST ASSIGNTABLE RECVPAY s0 s →
  well_sized MAXGROUPS s ∧ nGroups (fSt s) = nGroups (fSt s0).
Proof.
  intros H0 Hreach. induction Hreach as [|s s' _ [IH HnG] Hstep]; [done|].
  apply step_sizes in Hstep as (HnG' & Ha & Hr).
  destruct IH as (IHa & IHr & IHn).
  split; [|congruence]. unfold well_sized. rewrite Ha, Hr, HnG'. done.
Qed.

End Frame.

(** ** The discipline of the critical regions *)

Lemma discipline_app (held : bool) (l1 l2 : list event) :
  discipline held (l1 ++ l2) = discipline held l1 ≫= λ h, discipline h l2.
Proof.
  revert held. induction l1 as [|e l1 IH]; intros held; [done|].
  cbn. destruct e as [[]|[]|]; destruct held; cbn; auto.
Qed.

Section Discipline.

Variables NUMTABLES MAXGROUPS : Z.
Variables WAIT_FOR_REQUEST ASSIGNTABLE RECVPAY : Z.

(** The events that [receivePayment] adds to the log. *)
Lemma receivePayment_log (n : Z) (s s' : state) :
  receivePayment NUMTABLES MAXGROUPS ASSIGNTABLE RECVPAY n s = Ok s' →
  ∃ t f1 f2 d,
    aget (assignedTable (fSt s)) n = Ok t ∧
    log s' = log s ++
      [semDown mutex; saveState f1; semUp (tableDone t); saveState f2;
       semUp mutex] ++ d ∧
    (d = [] ∨
     (∃ f g, d = [semDown mutex; saveState f; semUp (waitForTable g);
                  semUp mutex]) ∨
     (∃ f, d = [semDown mutex; saveState f; semUp mutex])).
Proof.
  intros (s1 & group & Hcrit & _ & Hcase)%receivePayment_inv.
  apply receivePayment_critical_inv in Hcrit
    as (t & Hget & _ & _ & _ & _ & _ & _ & _ & _ & Hlog1).
  exists t. eexists _, _.
  destruct Hcase as [[_ ->]|(_ & s2 & Hprov & Hdecr)].
  - exists []. split; [done|]. split; [exact Hlog1 | by left].
  - apply provideTableOrWaitingRoom_inv in Hprov
      as (table & _ & _ & _ & _ & _ & Hcase).
    apply decr_groupsWaiting_Ok in Hdecr as [_ ->]. cbn.
    destruct Hcase as [(_ & _ & _ & _ & _ & _ & ->)|(_ & _ & _ & _ & _ & ->)];
      rewrite Hlog1, <- app_assoc; eexists; (split; [done|]);
      (split; [reflexivity|]); right; [left | right]; by repeat eexists.
Qed.

Lemma discipline_step (s s' : state) :
  step NUMTABLES MAXGROUPS WAIT_FOR_REQUEST ASSIGNTABLE RECVPAY s s' →
  discipline false (log s) = Some false →
  discipline false (log s') = Some false.
Proof.
  intros [r s1|n s1 s2 Hprov|n s1 s2 Hpay] H0.
  - cbn. rewrite <- !app_assoc, discipline_app, H0. reflexivity.
  - apply provideTableOrWaitingRoom_inv in Hprov
      as (table & _ & _ & _ & _ & _ & Hcase).
    destruct Hcase as [(_ & _ & _ & _ & _ & _ & ->)|(_ & _ & _ & _ & _ & ->)];
      by rewrite discipline_app, H0.
  - apply receivePayment_log in Hpay as (t & f1 & f2 & d & _ & -> & Hd).
    rewrite discipline_app, H0. cbn.
    destruct Hd as [->|[(f & g & ->)|(f & ->)]]; reflexivity.
Qed.

(** X1 (critical regions).  Over any sequence of operations the receptionist
    acquires [mutex] only while it is free and has released it whenever an
    operation returns; it saves the state and releases [waitForTable] and
    [tableDone] only inside a critical region, uses the request semaphores
    only outside one, and never waits on a group's or a table's semaphore. *)
Theorem discipline_reachable (s0 s : state) :
  discipline false (log s0) = Some false →
  reachable NUMTABLES MAXGROUPS WAIT_FOR_REQUEST ASSIGNTABLE RECVPAY s0 s →
  discipline false (log s) = Some false.
Proof.
  intros H0 Hreach. induction Hreach as [|s s' _ IH Hstep]; [done|].
  by eapply discipline_step.
Qed.

End Discipline.

(** ** The initialisation loop of [main] *)

Lemma initRecord_loop_spec (r : list Z) (k : nat) (g : Z) (r' : list Z) :
  0 ≤ g ≤ Z.of_nat (length r) →
  initRecord_loop r k g = Ok r' →
  length r' = length r ∧
  g + Z.of_nat k ≤ Z.of_nat (length r) ∧
  (∀ i, g ≤ i < g + Z.of_nat k → aget r' i = Ok TOARRIVE) ∧
  (∀ i, ¬ (g ≤ i < g + Z.of_nat k) → aget r' i = aget r i).
Proof.
  revert r g. induction k as [|k IH]; intros r g Hg Hrun.
  - injection Hrun as <-. split; [done|]. split; [lia|]. split; [|done].
    intros i Hi. lia.
  - cbn in Hrun. step_bind Hrun. apply aset_Ok in E as [Hb ->].
    assert (0 ≤ g + 1 ≤
            Z.of_nat (length (<[Z.to_nat g := TOARRIVE]> r))) as Hg1.
    { rewrite length_insert. lia. }
    destruct (IH _ (g + 1) Hg1 Hrun) as (Hlen & Hle & Hin & Hout).
    rewrite length_insert in Hlen, Hle.
    split; [done|]. split; [lia|]. split.
    + intros i Hi. destruct (decide (i = g)) as [->|Hne].
      * rewrite Hout by lia. by apply aget_insert_eq.
      * apply Hin. lia.
    + intros i Hi. rewrite Hout by lia. apply aget_insert_ne; lia.
Qed.

Lemma initRecord_loop_total (r : list Z) (k : nat) (g : Z) :
  0 ≤ g → g + Z.of_nat k ≤ Z.of_nat (length r) →
  ∃ r', initRecord_loop r k g = Ok r'.
Proof.
  revert r g. induction k as [|k IH]; intros r g Hg Hlen; [by eexists|].
  cbn. rewrite aset_total by lia. cbn. apply IH; [lia|].
  rewrite length_insert. lia.
Qed.

(** X2 (the first loop of [main]).  The first loop of [main] runs to its end
    exactly when [groupRecord] has room for [nGroups] groups. It then
    records every group as [TOARRIVE], whatever the array held, and leaves
    the entries after the groups and the size of the array as they were. *)
Theorem initRecord_loop_post (r : list Z) (nG : Z) :
  ((∃ r', initRecord_loop r (Z.to_nat nG) 0 = Ok r') ↔
   nG ≤ Z.of_nat (length r)) ∧
  ∀ r', initRecord_loop r (Z.to_nat nG) 0 = Ok r' →
    length r' = length r ∧
    (∀ i, 0 ≤ i < nG → aget r' i = Ok TOARRIVE) ∧
    (∀ i, nG ≤ i → aget r' i = aget r i).
Proof.
  split.
  - split.
    + intros [r' Hrun].
      apply initRecord_loop_spec in Hrun as (_ & Hle & _); lia.
    + intros Hle. apply initRecord_loop_total; lia.
  - intros r' (Hlen & _ & Hin & Hout)%initRecord_loop_spec; [|lia].
    split; [done|]. split.
    + intros i Hi. apply Hin. lia.
    + intros i Hi. apply Hout. lia.
Qed.

(** ** Group indices outside the arrays *)

Section Bounds.

Variables NUMTABLES MAXGROUPS : Z.
Variables WAIT_FOR_REQUEST ASSIGNTABLE RECVPAY : Z.

(** X3 (group indices outside the arrays).  In a well-sized state whose
    counter can still grow, [provideTableOrWaitingRoom n] runs to its end
    exactly for the indices [n] of the arrays; for any other [n] an array
    access is out of bounds, whether a table is free or not. *)
Theorem provideTableOrWaitingRoom_bounds (n : Z) (s : state) :
  well_sized MAXGROUPS s →
  groupsWaiting (fSt s) < INT_MAX →
  ((∃ s', provideTableOrWaitingRoom NUMTABLES MAXGROUPS ASSIGNTABLE n s
            = Ok s') ↔ 0 ≤ n < MAXGROUPS) ∧
  (¬ (0 ≤ n < MAXGROUPS) →
   provideTableOrWaitingRoom NUMTABLES MAXGROUPS ASSIGNTABLE n s
     = Fault OutOfBounds).
Proof.
  intros (Ha & Hr & HnG) Hw.
  destruct (decideTableOrWait_total NUMTABLES s n) as [table Hd]; [lia|].
  split.
  - split.
    + intros [s' (_ & _ & Hn & _)%provideTableOrWaitingRoom_inv]. lia.
    + intros Hn. eapply provideTableOrWaitingRoom_runs; [done | lia | |done].
      intros _. lia.
  - intros Hn. unfold provideTableOrWaitingRoom. cbn.
    change (decideTableOrWait NUMTABLES _ n)
      with (decideTableOrWait NUMTABLES s n).
    rewrite Hd. cbn. case_decide.
    + unfold aset. rewrite !decide_False by lia. reflexivity.
    + unfold int_incr. rewrite decide_True by done. cbn.
      unfold aset. rewrite !decide_False by lia. reflexivity.
Qed.

End Bounds.

(** ** The requests taken by the loop of [main] *)

Lemma requests_taken_app (l1 l2 : list event) :
  requests_taken (l1 ++ l2) = (requests_taken l1 + requests_taken l2)%nat.
Proof. apply sum_list_with_app. Qed.

Section Requests.

Variables NUMTABLES MAXGROUPS : Z.
Variables WAIT_FOR_REQUEST ASSIGNTABLE RECVPAY : Z.
Variables TABLEREQ BILLREQ : Z.

Lemma requests_taken_provideTableOrWaitingRoom (n : Z) (s s' : state) :
  provideTableOrWaitingRoom NUMTABLES MAXGROUPS ASSIGNTABLE n s = Ok s' →
  requests_taken (log s') = requests_taken (log s).
Proof.
  intros (table & _ & _ & _ & _ & _ & Hcase)%provideTableOrWaitingRoom_inv.
  destruct Hcase as [(_ & _ & _ & _ & _ & _ & ->)|(_ & _ & _ & _ & _ & ->)];
    rewrite requests_taken_app; cbn; lia.
Qed.

Lemma requests_taken_receivePayment (n : Z) (s s' : state) :
  receivePayment NUMTABLES MAXGROUPS ASSIGNTABLE RECVPAY n s = Ok s' →
  requests_taken (log s') = requests_taken (log s).
Proof.
  intros (t & f1 & f2 & d & _ & -> & Hd)%receivePayment_log.
  rewrite requests_taken_app. cbn.
  destruct Hd as [->|[(f & g & ->)|(f & ->)]]; cbn; lia.
Qed.

Lemma requests_taken_waitForGroup (r : request) (s : state) :
  requests_taken (log (waitForGroup WAIT_FOR_REQUEST (postRequest r) s).2) =
  S (requests_taken (log s)).
Proof. cbn. rewrite <- !app_assoc, requests_taken_app. cbn. lia. Qed.

(** A turn of the loop takes one request, whatever its type. *)
Lemma requests_taken_serve (r : request) (s s' : state) :
  serve NUMTABLES MAXGROUPS WAIT_FOR_REQUEST ASSIGNTABLE RECVPAY
    TABLEREQ BILLREQ (postRequest r) s = Ok s' →
  requests_taken (log s') = S (requests_taken (log s)).
Proof.
  unfold serve.
  destruct (waitForGroup WAIT_FOR_REQUEST (postRequest r) s) as [req s1] eqn:Hw.
  assert (requests_taken (log s1) = S (requests_taken (log s))) as H1.
  { replace s1 with (waitForGroup WAIT_FOR_REQUEST (postRequest r) s).2
      by (by rewrite Hw).
    apply requests_taken_waitForGroup. }
  repeat case_decide; intros Hrun.
  - apply requests_taken_provideTableOrWaitingRoom in Hrun. congruence.
  - apply requests_taken_receivePayment in Hrun. congruence.
  - by injection Hrun as <-.
Qed.

Lemma requests_taken_lifeCycle_loop (posts : nat → request) (k nReq : nat)
    (s s' : state) :
  lifeCycle_loop NUMTABLES MAXGROUPS WAIT_FOR_REQUEST ASSIGNTABLE RECVPAY
    TABLEREQ BILLREQ k (λ i, postRequest (posts i)) nReq s = Ok s' →
  requests_taken (log s') = (requests_taken (log s) + k)%nat.
Proof.
  revert nReq s. induction k as [|k IH]; intros nReq s Hrun.
  - injection Hrun as <-. lia.
  - cbn -[serve] in Hrun.
    destruct (serve _ _ _ _ _ _ _ _ s) as [s1|e] eqn:Hs; [|done].
    apply requests_taken_serve in Hs. apply IH in Hrun. lia.
Qed.

(** X4 (the requests taken by [main]).  When [main] leaves its loop the
    receptionist has taken exactly [2 * nGroups] requests, whatever their
    types and groups. *)
Theorem receptionist_takes_all_requests (posts : nat → request)
    (s s' : state) :
  receptionist NUMTABLES MAXGROUPS WAIT_FOR_REQUEST ASSIGNTABLE RECVPAY
    TABLEREQ BILLREQ (λ i, postRequest (posts i)) s = Ok s' →
  Z.of_nat (requests_taken (log s')) =
    Z.of_nat (requests_taken (log s)) + Z.max 0 (2 * nGroups (fSt s)).
Proof.
  unfold receptionist. intros Hrun. step_bind Hrun. step_bind Hrun.
  unfold int_mul in E0. case_decide; [|done]. injection E0 as <-.
  apply requests_taken_lifeCycle_loop in Hrun.
  change (log (set_groupRecord a s)) with (log s) in Hrun.
  change (nGroups (fSt (set_groupRecord a s))) with (nGroups (fSt s)) in Hrun.
  lia.
Qed.

(** X5 (requests of another type).  A request that is neither a table
    request nor a bill request is taken and dropped: the turn ends well and
    changes no assignment, no record and no counter. *)
Theorem serve_unknown_request (r : request) (s : state) :
  reqType r ≠ TABLEREQ → reqType r ≠ BILLREQ →
  ∃ s', serve NUMTABLES MAXGROUPS WAIT_FOR_REQUEST ASSIGNTABLE RECVPAY
          TABLEREQ BILLREQ (postRequest r) s = Ok s' ∧
    assignedTable (fSt s') = assignedTable (fSt s) ∧
    groupRecord s' = groupRecord s ∧
    groupsWaiting (fSt s') = groupsWaiting (fSt s) ∧
    receptionistRequest (fSt s') = noRequest ∧
    requests_taken (log s') = S (requests_taken (log s)).
Proof.
  intros Ht Hb. eexists. split.
  - unfold serve. cbn. rewrite !decide_False by done. reflexivity.
  - repeat split. apply requests_taken_waitForGroup.
Qed.

End Requests.

(** ** No more groups at table than tables *)

Lemma NoDup_filter_tables (l : list Z) :
  (∀ i j t, l !! i = Some t → l !! j = Some t → t ≠ -1 → i = j) →
  NoDup (filter (λ t, t ≠ -1) l).
Proof.
  induction l as [|x l IH]; intros Huniq; [apply NoDup_nil_2|].
  assert (NoDup (filter (λ t, t ≠ -1) l)) as Htail.
  { apply IH. intros i j t Hi Hj Ht.
    by injection (Huniq (S i) (S j) t Hi Hj Ht). }
  rewrite filter_cons. case_decide as Hx; [|done].
  apply NoDup_cons_2; [|done].
  intros [_ Hin]%list_elem_of_filter.
  apply list_elem_of_lookup in Hin as [j Hj].
  by specialize (Huniq 0%nat (S j) x eq_refl Hj Hx).
Qed.

Section Capacity.

Variables NUMTABLES MAXGROUPS : Z.
Variables WAIT_FOR_REQUEST ASSIGNTABLE RECVPAY : Z.

Lemma tables_held_lookup (s : state) (i : nat) (t : Z) :
  take (Z.to_nat (nGroups (fSt s))) (assignedTable (fSt s)) !! i = Some t →
  0 ≤ Z.of_nat i < nGroups (fSt s) ∧
  aget (assignedTable (fSt s)) (Z.of_nat i) = Ok t.
Proof.
  intros [Hget Hi]%lookup_take_Some. split; [lia|].
  apply aget_Ok. split; [lia|]. by rewrite Nat2Z.id.
Qed.

Lemma table_inv_tables_held (s : state) :
  table_inv NUMTABLES s →
  NoDup (tables_held s) ∧
  (length (tables_held s) ≤ Z.to_nat NUMTABLES)%nat.
Proof.
  intros Hinv.
  assert (NoDup (tables_held s)) as Hnd.
  { apply NoDup_filter_tables. intros i j t Hi Hj Ht.
    apply tables_held_lookup in Hi as [Hi Hgi].
    apply tables_held_lookup in Hj as [Hj Hgj].
    destruct (Hinv _ _ Hi Hgi Ht) as [_ Huniq].
    specialize (Huniq _ Hj Hgj). lia. }
  split; [done|].
  rewrite <- (length_seqZ 0 NUMTABLES).
  apply submseteq_length, NoDup_submseteq; [done|].
  intros t [Ht Hin]%list_elem_of_filter.
  apply list_elem_of_lookup in Hin as [i Hi].
  apply tables_held_lookup in Hi as [Hi Hgi].
  destruct (Hinv _ _ Hi Hgi Ht) as [Hrange _].
  apply elem_of_seqZ. lia.
Qed.

(** X6 (no more groups at table than tables).  Over any sequence of
    operations the tables held by the groups are all different, so that
    never more groups hold a table than there are tables. *)
Theorem tables_held_reachable (s0 s : state) :
  table_inv NUMTABLES s0 →
  reachable NUMTABLES MAXGROUPS WAIT_FOR_REQUEST ASSIGNTABLE RECVPAY s0 s →
  NoDup (tables_held s) ∧
  (length (tables_held s) ≤ Z.to_nat NUMTABLES)%nat.
Proof.
  intros H0 Hreach. apply table_inv_tables_held.
  induction Hreach as [|s s' _ IH Hstep]; [done|].
  by eapply table_inv_step.
Qed.

End Capacity.

(** ** Runs of the protocol *)

Lemma sum_list_with_insert {A} (f : A → nat) (l : list A) (i : nat)
    (old v : A) :
  l !! i = Some old →
  (sum_list_with f (<[i:=v]> l) + f old = sum_list_with f l + f v)%nat.
Proof.
  revert i. induction l as [|x l IH]; intros [|i] Hi; try done.
  - injection Hi as ->. change (<[0%nat:=v]> (old :: l)) with (v :: l).
    cbn. lia.
  - change (<[S i:=v]> (x :: l)) with (x :: <[i:=v]> l).
    specialize (IH i Hi). cbn. lia.
Qed.

Lemma signals_app (g : Z) (l1 l2 : list event) :
  signals g (l1 ++ l2) = (signals g l1 + signals g l2)%nat.
Proof. apply sum_list_with_app. Qed.

Section ProtocolRuns.

Variables NUMTABLES MAXGROUPS : Z.
Variables WAIT_FOR_REQUEST ASSIGNTABLE RECVPAY : Z.
Variables TABLEREQ BILLREQ : Z.
Hypothesis request_types : TABLEREQ ≠ BILLREQ.

(** A turn is a [waitForGroup], which changes no array and no counter,
    followed by the operation that the request asks for. *)
Lemma turn_inv (s s' : state) :
  turn NUMTABLES MAXGROUPS WAIT_FOR_REQUEST ASSIGNTABLE RECVPAY
    TABLEREQ BILLREQ s s' →
  ∃ n s1 d,
    nGroups (fSt s1) = nGroups (fSt s) ∧
    assignedTable (fSt s1) = assignedTable (fSt s) ∧
    groupRecord s1 = groupRecord s ∧
    groupsWaiting (fSt s1) = groupsWaiting (fSt s) ∧
    log s1 = log s ++ d ∧
    (∀ g, signals g d = 0%nat) ∧
    0 ≤ n < nGroups (fSt s1) ∧
    ((aget (groupRecord s1) n = Ok TOARRIVE ∧
      provideTableOrWaitingRoom NUMTABLES MAXGROUPS ASSIGNTABLE n s1
        = Ok s') ∨
     (aget (groupRecord s1) n = Ok ATTABLE ∧
      receivePayment NUMTABLES MAXGROUPS ASSIGNTABLE RECVPAY n s1 = Ok s')).
Proof.
  intros [[ty n] s0 s1 [Hn Hcase] Hrun]. cbn in Hn, Hcase.
  exists n, (waitForGroup WAIT_FOR_REQUEST (postRequest (mkRequest ty n)) s0).2.
  eexists. do 4 (split; [reflexivity|]).
  split; [cbn; rewrite <- !app_assoc; reflexivity|].
  split; [done|]. split; [done|].
  destruct Hcase as [[-> Hrec]|[-> Hrec]].
  - left. split; [done|]. by rewrite serve_TABLEREQ in Hrun.
  - right. split; [done|]. by rewrite serve_BILLREQ in Hrun.
Qed.

Lemma turn_reachable (s s' : state) :
  turn NUMTABLES MAXGROUPS WAIT_FOR_REQUEST ASSIGNTABLE RECVPAY
    TABLEREQ BILLREQ s s' →
  reachable NUMTABLES MAXGROUPS WAIT_FOR_REQUEST ASSIGNTABLE RECVPAY s s'.
Proof. intros [r s0 s1 _ Hrun]. by eapply serve_reachable. Qed.

Lemma turn_quiescent (s s' : state) :
  turn NUMTABLES MAXGROUPS WAIT_FOR_REQUEST ASSIGNTABLE RECVPAY
    TABLEREQ BILLREQ s s' →
  quiescent NUMTABLES MAXGROUPS WAIT_FOR_REQUEST ASSIGNTABLE RECVPAY s s'.
Proof. intros [r s0 s1 Hr Hrun]. by eapply serve_quiescent. Qed.

(** *** A group is at table exactly while it holds a table *)

Lemma record_matches_provideTableOrWaitingRoom (n v : Z) (s s' : state) :
  aget (groupRecord s) n = Ok v → v ≠ ATTABLE →
  provideTableOrWaitingRoom NUMTABLES MAXGROUPS ASSIGNTABLE n s = Ok s' →
  record_matches s → record_matches s'.
Proof.
  intros Hv Hne
    (table & _ & Hn & HnG & _ & _ & Hcase)%provideTableOrWaitingRoom_inv
    Hinv i w t Hi Hw Ht.
  rewrite HnG in Hi.
  destruct Hcase as [(Htab & Hna & _ & Ha & Hr & _)|(_ & _ & Ha & Hr & _)];
    rewrite Ha in Ht; rewrite Hr in Hw.
  - destruct (decide (i = n)) as [->|Hin].
    + rewrite aget_insert_eq in Hw, Ht by done.
      injection Hw as <-. injection Ht as <-. done.
    + rewrite aget_insert_ne in Hw, Ht by lia. by eapply Hinv.
  - destruct (decide (i = n)) as [->|Hin].
    + rewrite aget_insert_eq in Hw by done. injection Hw as <-.
      destruct (Hinv n v t Hi Hv Ht) as [_ Hback].
      split; [done|]. intros Hheld. by destruct Hne; apply Hback.
    + rewrite aget_insert_ne in Hw by lia. by eapply Hinv.
Qed.

Lemma record_matches_receivePayment_critical (n : Z) (s s1 : state) :
  receivePayment_critical NUMTABLES RECVPAY n s = Ok s1 →
  record_matches s → record_matches s1.
Proof.
  intros (t & Hget & _ & Hn & HnG & _ & _ & Ha & Hr & _)
    %receivePayment_critical_inv Hinv i w u Hi Hw Hu.
  rewrite HnG in Hi. rewrite Ha in Hu. rewrite Hr in Hw.
  pose proof (aget_bound _ _ _ Hget) as Hb.
  destruct (decide (i = n)) as [->|Hin].
  - rewrite aget_insert_eq in Hw, Hu by done.
    injection Hw as <-. injection Hu as <-. done.
  - rewrite aget_insert_ne in Hw, Hu by lia. by eapply Hinv.
Qed.

Lemma record_matches_receivePayment (n : Z) (s s' : state) :
  receivePayment NUMTABLES MAXGROUPS ASSIGNTABLE RECVPAY n s = Ok s' →
  record_matches s → record_matches s'.
Proof.
  intros (s1 & group & Hcrit & Hnext & Hcase)%receivePayment_inv Hinv.
  apply (record_matches_receivePayment_critical _ _ _ Hcrit) in Hinv.
  destruct Hcase as [[_ ->]|(Hg & s2 & Hprov & Hdecr)]; [done|].
  apply decideNextGroup_sound in Hnext as [[-> _]|(_ & Hwait & _)]; [done|].
  apply decr_groupsWaiting_Ok in Hdecr as [_ ->].
  by eapply (record_matches_provideTableOrWaitingRoom group WAIT s1 s2).
Qed.

Lemma record_matches_turn (s s' : state) :
  turn NUMTABLES MAXGROUPS WAIT_FOR_REQUEST ASSIGNTABLE RECVPAY
    TABLEREQ BILLREQ s s' →
  record_matches s → record_matches s'.
Proof.
  intros (n & s1 & d & HnG & Ha & Hr & _ & _ & _ & Hn & Hcase)%turn_inv Hinv.
  assert (record_matches s1) as Hinv1.
  { unfold record_matches. by rewrite HnG, Ha, Hr. }
  destruct Hcase as [[Hrec Hprov]|[Hrec Hpay]].
  - by eapply (record_matches_provideTableOrWaitingRoom n TOARRIVE).
  - by eapply record_matches_receivePayment.
Qed.

(** X7 (records and assignments agree).  Over the turns of the loop of
    [main] for requests that follow the protocol, a group is recorded as
    [ATTABLE] exactly while its entry of [assignedTable] is a table: a
    queued, a coming and a gone group hold [-1]. *)
Theorem record_matches_turns (k : nat) (s0 s : state) :
  record_matches s0 →
  turns NUMTABLES MAXGROUPS WAIT_FOR_REQUEST ASSIGNTABLE RECVPAY
    TABLEREQ BILLREQ k s0 s →
  ∀ i v t, 0 ≤ i < nGroups (fSt s) →
    aget (groupRecord s) i = Ok v → aget (assignedTable (fSt s)) i = Ok t →
    (v = ATTABLE ↔ t ≠ -1).
Proof.
  intros H0 Hturns. change (record_matches s).
  induction Hturns as [|k s s1 s' Hturn _ IH]; [done|].
  apply IH. by eapply record_matches_turn.
Qed.

(** *** No group is queued while a table is free *)

Lemma no_idle_table_provideTableOrWaitingRoom (n : Z) (s s' : state) :
  provideTableOrWaitingRoom NUMTABLES MAXGROUPS ASSIGNTABLE n s = Ok s' →
  no_idle_table NUMTABLES s → no_idle_table NUMTABLES s'.
Proof.
  intros Hprov Hinv.
  pose proof Hprov as
    (table & Hd & Hn & HnG & _ & _ & Hcase)%provideTableOrWaitingRoom_inv.
  apply decideTableOrWait_sound in Hd.
  unfold no_idle_table. rewrite HnG.
  destruct Hcase as [(Htab & _ & _ & _ & Hr & _)|(-> & _ & -> & _)].
  - intros (i & Hi & Hwait). rewrite Hr in Hwait.
    destruct (decide (i = n)) as [->|Hin].
    { by rewrite aget_insert_eq in Hwait by done. }
    rewrite aget_insert_ne in Hwait by lia.
    destruct Hd as [[-> _]|(Hrange & Hfree & _)]; [done|].
    destruct Hfree. apply Hinv; [by exists i | done].
  - intros _. by destruct Hd as [[_ Hall]|(Hrange & _)]; [|lia].
Qed.

(** When a group pays while another is queued, the first queued group gets
    the table that the paying group gives back. *)
Lemma receivePayment_reseats (n : Z) (s s1 s' : state) (g : Z) :
  table_inv NUMTABLES s → no_idle_table NUMTABLES s →
  0 ≤ n < nGroups (fSt s) →
  receivePayment_critical NUMTABLES RECVPAY n s = Ok s1 →
  decideNextGroup s1 = Ok g → g ≠ -1 →
  receivePayment NUMTABLES MAXGROUPS ASSIGNTABLE RECVPAY n s = Ok s' →
  ∃ t, aget (assignedTable (fSt s)) n = Ok t ∧ 0 ≤ t < NUMTABLES ∧
    0 ≤ g < nGroups (fSt s) ∧ g ≠ n ∧
    aget (groupRecord s) g = Ok WAIT ∧
    0 ≤ g < Z.of_nat (length (assignedTable (fSt s))) ∧
    0 ≤ g < Z.of_nat (length (groupRecord s)) ∧
    assignedTable (fSt s') =
      <[Z.to_nat g := t]> (<[Z.to_nat n := -1]> (assignedTable (fSt s))) ∧
    groupRecord s' =
      <[Z.to_nat g := ATTABLE]> (<[Z.to_nat n := DONE]> (groupRecord s)).
Proof.
  intros Htab Hidle Hn Hcrit Hnext Hg
    (s1' & g' & Hcrit' & Hnext' & Hcase)%receivePayment_inv.
  assert (s1' = s1) as -> by congruence.
  assert (g' = g) as -> by congruence.
  destruct Hcase as [[-> _]|(_ & s2 & Hprov & Hdecr)]; [done|].
  pose proof Hcrit as
    (t & Hget & Ht & Hrn & HnG & _ & _ & Ha & Hr & _)
      %receivePayment_critical_inv.
  pose proof (aget_bound _ _ _ Hget) as Hb.
  pose proof (paid_table_is_free _ s s1 n t Htab Hn Hget Ht Ha HnG) as Hfree.
  apply decideNextGroup_sound in Hnext as [[-> _]|(Hrange & Hwait & _)];
    [done|].
  rewrite HnG in Hrange. rewrite Hr in Hwait.
  assert (g ≠ n) as Hgn.
  { intros ->. by rewrite aget_insert_eq in Hwait by lia. }
  rewrite aget_insert_ne in Hwait by lia.
  assert (∀ k, 0 ≤ k < NUMTABLES →
            occupied (nGroups (fSt s)) (assignedTable (fSt s)) k) as Hfull.
  { apply Hidle. by exists g. }
  apply provideTableOrWaitingRoom_inv in Hprov
    as (table & Hd & Hgr & _ & _ & _ & Hcase).
  apply decideTableOrWait_sound in Hd. rewrite HnG, Ha in Hd.
  rewrite Hr, length_insert in Hgr.
  apply decr_groupsWaiting_Ok in Hdecr as [_ ->]. cbn.
  exists t. do 5 (split; [done|]).
  destruct Hcase as [(Hne & Hga & _ & Ha2 & Hr2 & _)|(-> & _)].
  - rewrite Ha, length_insert in Hga. do 2 (split; [done|]).
    rewrite Ha2, Hr2, Ha, Hr. split; [|done].
    assert (table = t) as ->; [|done].
    destruct Hd as [[-> _]|(Hrange' & Hnocc & _)]; [done|].
    destruct (decide (table = t)) as [|Hne']; [done|].
    destruct Hnocc. destruct (Hfull table Hrange') as (j & Hj & Hgetj).
    exists j. split; [done|]. rewrite aget_insert_ne; [done|lia|].
    intros ->. congruence.
  - destruct Hd as [[_ Hall]|(Hrange' & _)]; [|lia].
    destruct Hfree. rewrite HnG, Ha. by apply Hall.
Qed.

Lemma no_idle_table_receivePayment (n : Z) (s s' : state) :
  table_inv NUMTABLES s → record_matches s →
  0 ≤ n < nGroups (fSt s) →
  receivePayment NUMTABLES MAXGROUPS ASSIGNTABLE RECVPAY n s = Ok s' →
  no_idle_table NUMTABLES s → no_idle_table NUMTABLES s'.
Proof.
  intros Htab Hmatch Hn Hpay Hidle.
  pose proof Hpay as (s1 & g & Hcrit & Hnext & Hcase)%receivePayment_inv.
  pose proof (receivePayment_sizes _ _ _ _ _ _ _ Hpay) as (HnG' & _ & _).
  destruct Hcase as [[-> ->]|(Hg & _)].
  - intros (i & Hi & Hwait).
    apply decideNextGroup_sound in Hnext as [[_ Hnone]|(Hrange & _)]; [|lia].
    destruct (Hnone i Hi) as (v & Hv & Hne). congruence.
  - destruct (receivePayment_reseats n s s1 s' g Htab Hidle Hn Hcrit Hnext
                Hg Hpay)
      as (t & Hget & Ht & Hgr & Hgn & Hwait & Hga & Hgb & Ha' & Hr').
    pose proof (aget_bound _ _ _ Hget) as Hb.
    assert (∀ k, 0 ≤ k < NUMTABLES →
              occupied (nGroups (fSt s)) (assignedTable (fSt s)) k) as Hfull.
    { apply Hidle. by exists g. }
    intros _ k Hk. rewrite HnG', Ha'.
    destruct (decide (k = t)) as [->|Hkt].
    { exists g. split; [done|]. apply aget_insert_eq.
      by rewrite length_insert. }
    destruct (Hfull k Hk) as (i & Hi & Hgeti).
    exists i. split; [done|].
    assert (i ≠ n) as Hin by (intros ->; congruence).
    assert (i ≠ g) as Hig.
    { intros ->. destruct (Hmatch g WAIT k Hgr Hwait Hgeti) as [_ Hback].
      assert (WAIT = ATTABLE) as Habs by (apply Hback; lia). done. }
    by rewrite !aget_insert_ne by lia.
Qed.

Lemma protocol_invariants_turn (s s' : state) :
  turn NUMTABLES MAXGROUPS WAIT_FOR_REQUEST ASSIGNTABLE RECVPAY
    TABLEREQ BILLREQ s s' →
  table_inv NUMTABLES s ∧ record_matches s ∧ no_idle_table NUMTABLES s →
  table_inv NUMTABLES s' ∧ record_matches s' ∧ no_idle_table NUMTABLES s'.
Proof.
  intros Hturn (Htab & Hmatch & Hidle).
  split; [|split].
  - apply turn_reachable in Hturn.
    induction Hturn as [|s1 s2 _ IH Hstep]; [done|].
    by eapply table_inv_step.
  - by eapply record_matches_turn.
  - apply turn_inv in Hturn
      as (n & s1 & d & HnG & Ha & Hr & _ & _ & _ & Hn & Hcase).
    assert (no_idle_table NUMTABLES s1) as Hidle1.
    { unfold no_idle_table. by rewrite HnG, Ha, Hr. }
    assert (table_inv NUMTABLES s1) as Htab1.
    { unfold table_inv. by rewrite HnG, Ha. }
    assert (record_matches s1) as Hmatch1.
    { unfold record_matches. by rewrite HnG, Ha, Hr. }
    destruct Hcase as [[_ Hprov]|[_ Hpay]].
    + by eapply no_idle_table_provideTableOrWaitingRoom.
    + by eapply no_idle_table_receivePayment.
Qed.

(** X8 (no table is idle while a group is queued).  Over the turns of the
    loop of [main] for requests that follow the protocol, whenever a group
    is recorded as [WAIT] every table is held by some group: the
    receptionist leaves no table free while a group is queued. *)
Theorem no_idle_table_turns (k : nat) (s0 s : state) :
  table_inv NUMTABLES s0 → record_matches s0 → no_idle_table NUMTABLES s0 →
  turns NUMTABLES MAXGROUPS WAIT_FOR_REQUEST ASSIGNTABLE RECVPAY
    TABLEREQ BILLREQ k s0 s →
  (∃ i, 0 ≤ i < nGroups (fSt s) ∧ aget (groupRecord s) i = Ok WAIT) →
  ∀ t, 0 ≤ t < NUMTABLES →
    ∃ i, 0 ≤ i < nGroups (fSt s) ∧ aget (assignedTable (fSt s)) i = Ok t.
Proof.
  intros Htab Hmatch Hidle Hturns.
  assert (table_inv NUMTABLES s ∧ record_matches s ∧
          no_idle_table NUMTABLES s) as (_ & _ & Hs); [|exact Hs].
  induction Hturns as [|k s s1 s' Hturn _ IH]; [done|].
  destruct (protocol_invariants_turn _ _ Hturn (conj Htab (conj Hmatch Hidle)))
    as (Htab1 & Hmatch1 & Hidle1).
  by apply IH.
Qed.

(** X9 (the vacated table).  In a state with unique assignments in which
    no table is idle while a group is queued, when group [n] pays while
    some group is queued, the first queued group gets the very table that
    [n] gives back and is recorded as [ATTABLE], and [n] is left without
    table and [DONE]. *)
Theorem vacated_table_goes_to_first_queued (n : Z) (s s1 s' : state) (g : Z) :
  table_inv NUMTABLES s → no_idle_table NUMTABLES s →
  0 ≤ n < nGroups (fSt s) →
  receivePayment_critical NUMTABLES RECVPAY n s = Ok s1 →
  decideNextGroup s1 = Ok g → g ≠ -1 →
  receivePayment NUMTABLES MAXGROUPS ASSIGNTABLE RECVPAY n s = Ok s' →
  ∃ t, aget (assignedTable (fSt s)) n = Ok t ∧
    aget (groupRecord s) g = Ok WAIT ∧
    aget (assignedTable (fSt s')) g = Ok t ∧
    aget (groupRecord s') g = Ok ATTABLE ∧
    aget (assignedTable (fSt s')) n = Ok (-1) ∧
    aget (groupRecord s') n = Ok DONE.
Proof.
  intros Htab Hidle Hn Hcrit Hnext Hg Hpay.
  destruct (receivePayment_reseats n s s1 s' g Htab Hidle Hn Hcrit Hnext
              Hg Hpay)
    as (t & Hget & Ht & Hgr & Hgn & Hwait & Hga & Hgb & -> & ->).
  pose proof (aget_bound _ _ _ Hget) as Hb.
  apply receivePayment_critical_inv in Hcrit
    as (_ & _ & _ & Hrn & _).
  exists t. do 2 (split; [done|]). split; [|split; [|split]].
  - apply aget_insert_eq. by rewrite length_insert.
  - apply aget_insert_eq. by rewrite length_insert.
  - rewrite aget_insert_ne by lia. by apply aget_insert_eq.
  - rewrite aget_insert_ne by lia. by apply aget_insert_eq.
Qed.

(** *** The records and the signals, turn by turn *)

(** What [provideTableOrWaitingRoom] does to the records and how often it
    releases the semaphore of each group. *)
Lemma provideTableOrWaitingRoom_effect (n : Z) (s s' : state) :
  provideTableOrWaitingRoom NUMTABLES MAXGROUPS ASSIGNTABLE n s = Ok s' →
  0 ≤ n < Z.of_nat (length (groupRecord s)) ∧
  ∃ d x, log s' = log s ++ d ∧
    groupRecord s' = <[Z.to_nat n := x]> (groupRecord s) ∧
    ((x = ATTABLE ∧
      ∀ i, signals i d = if decide (n = i) then 1%nat else 0%nat) ∨
     (x = WAIT ∧ ∀ i, signals i d = 0%nat)).
Proof.
  intros (table & _ & Hn & _ & _ & _ & Hcase)%provideTableOrWaitingRoom_inv.
  split; [done|].
  destruct Hcase as [(_ & _ & _ & _ & Hr & _ & Hlog)|(_ & _ & _ & Hr & _ & Hlog)].
  - eexists _, ATTABLE. split; [exact Hlog|]. split; [done|]. left.
    split; [done|]. intros i. unfold signals. cbn. lia.
  - eexists _, WAIT. split; [exact Hlog|]. split; [done|]. by right.
Qed.

(** The same for [receivePayment]. *)
Lemma receivePayment_effect (n : Z) (s s' : state) :
  receivePayment NUMTABLES MAXGROUPS ASSIGNTABLE RECVPAY n s = Ok s' →
  0 ≤ n < Z.of_nat (length (groupRecord s)) ∧
  ∃ d, log s' = log s ++ d ∧
    ((groupRecord s' = <[Z.to_nat n := DONE]> (groupRecord s) ∧
      ∀ i, signals i d = 0%nat) ∨
     (∃ g x, g ≠ n ∧ 0 ≤ g < nGroups (fSt s) ∧
        0 ≤ g < Z.of_nat (length (groupRecord s)) ∧
        aget (groupRecord s) g = Ok WAIT ∧
        groupRecord s' =
          <[Z.to_nat g := x]> (<[Z.to_nat n := DONE]> (groupRecord s)) ∧
        ((x = ATTABLE ∧
          ∀ i, signals i d = if decide (g = i) then 1%nat else 0%nat) ∨
         (x = WAIT ∧ ∀ i, signals i d = 0%nat)))).
Proof.
  intros (s1 & g & Hcrit & Hnext & Hcase)%receivePayment_inv.
  apply receivePayment_critical_inv in Hcrit
    as (t & _ & _ & Hn & HnG & _ & _ & _ & Hr & _ & Hlog).
  split; [done|].
  destruct Hcase as [[_ ->]|(Hg & s2 & Hprov & Hdecr)].
  - eexists. split; [exact Hlog|]. left. split; [done|].
    intros i. unfold signals. cbn. lia.
  - apply decideNextGroup_sound in Hnext as [[-> _]|(Hrange & Hwait & _)];
      [done|].
    rewrite HnG in Hrange. rewrite Hr in Hwait.
    assert (g ≠ n) as Hgn.
    { intros ->. by rewrite aget_insert_eq in Hwait by lia. }
    rewrite aget_insert_ne in Hwait by lia.
    apply provideTableOrWaitingRoom_effect in Hprov
      as (Hgb & d & x & Hlog2 & Hr2 & Hx).
    rewrite Hr, length_insert in Hgb.
    apply decr_groupsWaiting_Ok in Hdecr as [_ ->]. cbn.
    eexists. split.
    { rewrite Hlog2, Hlog, <- app_assoc. reflexivity. }
    right. exists g, x. do 4 (split; [done|]).
    split; [by rewrite Hr2, Hr|].
    destruct Hx as [[-> Hsig]|[-> Hsig]]; [left | right]; (split; [done|]);
      intros i; rewrite signals_app, Hsig; unfold signals; cbn; lia.
Qed.

Lemma legal_step_turn (s s' : state) (i v v' : Z) :
  turn NUMTABLES MAXGROUPS WAIT_FOR_REQUEST ASSIGNTABLE RECVPAY
    TABLEREQ BILLREQ s s' →
  aget (groupRecord s) i = Ok v → aget (groupRecord s') i = Ok v' →
  legal_step v v'.
Proof.
  intros (n & s1 & d & HnG & Ha & Hr & _ & _ & _ & Hn & Hcase)%turn_inv Hv Hv'.
  rewrite Hr in Hcase. unfold legal_step.
  destruct Hcase as [[Hrec Hprov]|[Hrec Hpay]].
  - apply provideTableOrWaitingRoom_effect in Hprov
      as (Hb & d' & x & _ & Hr' & Hx).
    rewrite Hr', Hr in Hv'. rewrite Hr in Hb.
    destruct (decide (i = n)) as [->|Hin].
    + rewrite aget_insert_eq in Hv' by done.
      assert (v = TOARRIVE) as -> by congruence.
      injection Hv' as <-. right. left. split; [done|].
      destruct Hx as [[-> _]|[-> _]]; [by right | by left].
    + rewrite aget_insert_ne in Hv' by lia. left. congruence.
  - apply receivePayment_effect in Hpay as (Hb & d' & _ & Hcase).
    rewrite Hr in Hb, Hcase.
    destruct Hcase as [[Hr' _]|(g & x & Hgn & _ & Hgb & Hwait & Hr' & Hx)];
      rewrite Hr' in Hv'.
    + destruct (decide (i = n)) as [->|Hin].
      * rewrite aget_insert_eq in Hv' by done.
        assert (v = ATTABLE) as -> by congruence.
        injection Hv' as <-. by do 3 right.
      * rewrite aget_insert_ne in Hv' by lia. left. congruence.
    + destruct (decide (i = g)) as [->|Hig].
      * rewrite aget_insert_eq in Hv' by (by rewrite length_insert).
        assert (v = WAIT) as -> by congruence. injection Hv' as <-.
        destruct Hx as [[-> _]|[-> _]]; [by right; right; left | by left].
      * rewrite aget_insert_ne in Hv' by lia.
        destruct (decide (i = n)) as [->|Hin].
        -- rewrite aget_insert_eq in Hv' by done.
           assert (v = ATTABLE) as -> by congruence.
           injection Hv' as <-. by do 3 right.
        -- rewrite aget_insert_ne in Hv' by lia. left. congruence.
Qed.

(** X10 (the lifecycle of a group).  In one turn of the loop for a request
    that follows the protocol, the record of a group stays as it is or makes
    one step of the lifecycle: from [TOARRIVE] to [WAIT] or [ATTABLE], from
    [WAIT] to [ATTABLE], from [ATTABLE] to [DONE]. *)
Theorem lifecycle_of_a_group (s s' : state) (i v v' : Z) :
  turn NUMTABLES MAXGROUPS WAIT_FOR_REQUEST ASSIGNTABLE RECVPAY
    TABLEREQ BILLREQ s s' →
  aget (groupRecord s) i = Ok v → aget (groupRecord s') i = Ok v' →
  v' = v ∨
  (v = TOARRIVE ∧ (v' = WAIT ∨ v' = ATTABLE)) ∨
  (v = WAIT ∧ v' = ATTABLE) ∨
  (v = ATTABLE ∧ v' = DONE).
Proof. apply legal_step_turn. Qed.

Lemma turn_sizes (s s' : state) :
  turn NUMTABLES MAXGROUPS WAIT_FOR_REQUEST ASSIGNTABLE RECVPAY
    TABLEREQ BILLREQ s s' →
  nGroups (fSt s') = nGroups (fSt s) ∧
  length (assignedTable (fSt s')) = length (assignedTable (fSt s)) ∧
  length (groupRecord s') = length (groupRecord s).
Proof.
  intros Hturn%turn_reachable.
  induction Hturn as [|s1 s2 _ (IH1 & IH2 & IH3) Hstep]; [done|].
  apply step_sizes in Hstep as (-> & -> & ->). done.
Qed.

(** X11 ([DONE] is final).  A group that is [DONE] stays [DONE] through any
    number of turns for requests that follow the protocol. *)
Theorem DONE_is_final (k : nat) (s s' : state) (i : Z) :
  turns NUMTABLES MAXGROUPS WAIT_FOR_REQUEST ASSIGNTABLE RECVPAY
    TABLEREQ BILLREQ k s s' →
  aget (groupRecord s) i = Ok DONE → aget (groupRecord s') i = Ok DONE.
Proof.
  intros Hturns Hdone.
  induction Hturns as [|k s s1 s' Hturn _ IH]; [done|].
  apply IH. pose proof (turn_sizes _ _ Hturn) as (_ & _ & Hlen).
  destruct (aget_total (groupRecord s1) i) as [v' Hv'].
  { rewrite Hlen. by eapply aget_bound. }
  destruct (legal_step_turn _ _ _ _ _ Hturn Hdone Hv')
    as [->|[[Habs _]|[[Habs _]|[Habs _]]]]; done.
Qed.

(** *** Every group is signalled once *)

Ltac decide_all :=
  repeat case_decide; try done; try lia;
  try (exfalso; intuition (done || lia || congruence)).

Lemma signalled_once_turn (s s' : state) :
  turn NUMTABLES MAXGROUPS WAIT_FOR_REQUEST ASSIGNTABLE RECVPAY
    TABLEREQ BILLREQ s s' →
  signalled_once s → signalled_once s'.
Proof.
  intros Hturn Hinv i v' Hi Hv'.
  pose proof (turn_sizes _ _ Hturn) as (HnG' & _ & Hlen).
  rewrite HnG' in Hi.
  destruct (aget_total (groupRecord s) i) as [v Hv].
  { rewrite <- Hlen. by eapply aget_bound. }
  specialize (Hinv i v Hi Hv).
  apply turn_inv in Hturn
    as (n & s1 & d & HnG & Ha & Hr & _ & Hlog & Hd & Hn & Hcase).
  rewrite Hr in Hcase.
  assert (signals i (log s1) = signals i (log s)) as Hs1.
  { rewrite Hlog, signals_app, Hd. lia. }
  destruct Hcase as [[Hrec Hprov]|[Hrec Hpay]].
  - apply provideTableOrWaitingRoom_effect in Hprov
      as (Hb & d' & x & -> & Hr' & Hx).
    rewrite Hr', Hr in Hv'. rewrite Hr in Hb.
    rewrite signals_app, Hs1, Hinv.
    destruct (decide (i = n)) as [->|Hin].
    + rewrite aget_insert_eq in Hv' by done. injection Hv' as <-.
      assert (v = TOARRIVE) as -> by congruence.
      destruct Hx as [[-> Hs]|[-> Hs]]; rewrite Hs; decide_all.
    + rewrite aget_insert_ne in Hv' by lia.
      assert (v' = v) as -> by congruence.
      destruct Hx as [[_ Hs]|[_ Hs]]; rewrite Hs; decide_all.
  - apply receivePayment_effect in Hpay as (Hb & d' & -> & Hcase).
    rewrite Hr in Hb, Hcase. rewrite signals_app, Hs1, Hinv.
    destruct Hcase as [[Hr' Hs]|(g & x & Hgn & _ & Hgb & Hwait & Hr' & Hx)];
      rewrite Hr' in Hv'.
    + rewrite Hs. destruct (decide (i = n)) as [->|Hin].
      * rewrite aget_insert_eq in Hv' by done. injection Hv' as <-.
        assert (v = ATTABLE) as -> by congruence. decide_all.
      * rewrite aget_insert_ne in Hv' by lia.
        assert (v' = v) as -> by congruence. lia.
    + destruct (decide (i = g)) as [->|Hig].
      * rewrite aget_insert_eq in Hv' by (by rewrite length_insert).
        injection Hv' as <-. assert (v = WAIT) as -> by congruence.
        destruct Hx as [[-> Hs]|[-> Hs]]; rewrite Hs; decide_all.
      * rewrite aget_insert_ne in Hv' by lia.
        assert (signals i d' = 0%nat) as ->.
        { destruct Hx as [[_ Hs]|[_ Hs]]; rewrite Hs; decide_all. }
        destruct (decide (i = n)) as [->|Hin].
        -- rewrite aget_insert_eq in Hv' by done. injection Hv' as <-.
           assert (v = ATTABLE) as -> by congruence. decide_all.
        -- rewrite aget_insert_ne in Hv' by lia.
           assert (v' = v) as -> by congruence. lia.
Qed.

(** X12 (signals).  Over the turns of the loop for requests that follow the
    protocol, [waitForTable[i]] has been released exactly once for a group
    recorded as [ATTABLE] or [DONE] and never for a group recorded
    otherwise: no group is woken twice, none is woken before it has a table. *)
Theorem signalled_once_turns (k : nat) (s0 s : state) :
  signalled_once s0 →
  turns NUMTABLES MAXGROUPS WAIT_FOR_REQUEST ASSIGNTABLE RECVPAY
    TABLEREQ BILLREQ k s0 s →
  ∀ i v, 0 ≤ i < nGroups (fSt s) → aget (groupRecord s) i = Ok v →
    signals i (log s) =
      if decide (v = ATTABLE ∨ v = DONE) then 1%nat else 0%nat.
Proof.
  intros H0 Hturns. change (signalled_once s).
  induction Hturns as [|k s s1 s' Hturn _ IH]; [done|].
  apply IH. by eapply signalled_once_turn.
Qed.

(** *** Every turn serves one request of one group *)

Lemma requests_served_record (r : list Z) (nG n old v : Z) :
  0 ≤ n < nG → aget r n = Ok old →
  (sum_list_with progress (take (Z.to_nat nG) (<[Z.to_nat n := v]> r))
   + progress old
   = sum_list_with progress (take (Z.to_nat nG) r) + progress v)%nat.
Proof.
  intros Hn [_ Hget]%aget_Ok. rewrite take_insert_lt by lia.
  apply sum_list_with_insert. by rewrite lookup_take_lt by lia.
Qed.

Lemma requests_served_turn (s s' : state) :
  turn NUMTABLES MAXGROUPS WAIT_FOR_REQUEST ASSIGNTABLE RECVPAY
    TABLEREQ BILLREQ s s' →
  requests_served s' = S (requests_served s).
Proof.
  intros Hturn. pose proof (turn_sizes _ _ Hturn) as (HnG' & _ & _).
  apply turn_inv in Hturn
    as (n & s1 & d & HnG & Ha & Hr & _ & _ & _ & Hn & Hcase).
  unfold requests_served. rewrite HnG'. rewrite Hr in Hcase.
  rewrite HnG in Hn.
  destruct Hcase as [[Hrec Hprov]|[Hrec Hpay]].
  - apply provideTableOrWaitingRoom_effect in Hprov
      as (Hb & d' & x & _ & -> & Hx). rewrite Hr.
    pose proof (requests_served_record _ _ _ _ x Hn Hrec) as Hsum.
    change (progress TOARRIVE) with 0%nat in Hsum.
    destruct Hx as [[-> _]|[-> _]].
    + change (progress ATTABLE) with 1%nat in Hsum. lia.
    + change (progress WAIT) with 1%nat in Hsum. lia.
  - apply receivePayment_effect in Hpay as (Hb & d' & _ & Hcase).
    rewrite Hr in Hb, Hcase. rewrite HnG in Hcase.
    pose proof (requests_served_record _ _ _ _ DONE Hn Hrec) as Hsum.
    change (progress ATTABLE) with 1%nat in Hsum.
    change (progress DONE) with 2%nat in Hsum.
    destruct Hcase as [[-> _]|(g & x & Hgn & Hg & Hgb & Hwait & -> & Hx)];
      [lia|].
    assert (aget (<[Z.to_nat n := DONE]> (groupRecord s)) g = Ok WAIT)
      as Hwait1 by (by rewrite aget_insert_ne by lia).
    pose proof (requests_served_record _ _ _ _ x Hg Hwait1) as Hsum2.
    change (progress WAIT) with 1%nat in Hsum2.
    destruct Hx as [[-> _]|[-> _]].
    + change (progress ATTABLE) with 1%nat in Hsum2. lia.
    + change (progress WAIT) with 1%nat in Hsum2. lia.
Qed.

Lemma progress_le (l : list Z) :
  (sum_list_with progress l ≤ 2 * length l)%nat.
Proof.
  induction l as [|x l IH]; [done|]. cbn.
  assert (progress x ≤ 2)%nat by (unfold progress; repeat case_decide; lia).
  lia.
Qed.

Lemma progress_full (l : list Z) :
  sum_list_with progress l = (2 * length l)%nat → Forall (λ v, v = DONE) l.
Proof.
  induction l as [|x l IH]; intros Hsum; [constructor|].
  change (sum_list_with progress (x :: l))
    with (progress x + sum_list_with progress l)%nat in Hsum.
  change (length (x :: l)) with (S (length l)) in Hsum.
  pose proof (progress_le l) as Hle.
  assert (progress x ≤ 2)%nat as Hx
    by (unfold progress; repeat case_decide; lia).
  constructor; [|apply IH; lia].
  destruct (decide (x = DONE)) as [|Hne]; [done|].
  assert (progress x ≤ 1)%nat
    by (unfold progress; repeat case_decide; done || lia).
  lia.
Qed.

(** X13 (one request per turn).  After [k] turns for requests that follow
    the protocol the groups have had [k] more requests served; and once two
    requests per group have been served every group is [DONE]. *)
Theorem requests_served_turns (k : nat) (s0 s : state) :
  turns NUMTABLES MAXGROUPS WAIT_FOR_REQUEST ASSIGNTABLE RECVPAY
    TABLEREQ BILLREQ k s0 s →
  requests_served s = (requests_served s0 + k)%nat ∧
  (requests_served s = (2 * Z.to_nat (nGroups (fSt s)))%nat →
   ∀ i, 0 ≤ i < nGroups (fSt s) → aget (groupRecord s) i = Ok DONE).
Proof.
  intros Hturns. split.
  - induction Hturns as [|k s s1 s' Hturn _ IH]; [lia|].
    apply requests_served_turn in Hturn. lia.
  - clear Hturns. unfold requests_served. intros Hsum i Hi.
    set (l := take (Z.to_nat (nGroups (fSt s))) (groupRecord s)) in *.
    pose proof (progress_le l) as Hle.
    assert (length l = Z.to_nat (nGroups (fSt s))) as Hlen.
    { pose proof (length_take (groupRecord s) (Z.to_nat (nGroups (fSt s)))).
      fold l in H. lia. }
    assert (Forall (λ v, v = DONE) l) as Hall.
    { apply progress_full. lia. }
    destruct (lookup_lt_is_Some_2 l (Z.to_nat i)) as [v Hv]; [lia|].
    rewrite Forall_lookup in Hall. rewrite (Hall _ _ Hv) in Hv.
    apply aget_Ok. split; [lia|].
    unfold l in Hv. by rewrite lookup_take_lt in Hv by lia.
Qed.

(** *** The whole run of [main] *)

Lemma protocol_posts_turns (posts : nat → request) (k nReq : nat)
    (s s' : state) :
  protocol_posts NUMTABLES MAXGROUPS WAIT_FOR_REQUEST ASSIGNTABLE RECVPAY
    TABLEREQ BILLREQ k posts nReq s →
  lifeCycle_loop NUMTABLES MAXGROUPS WAIT_FOR_REQUEST ASSIGNTABLE RECVPAY
    TABLEREQ BILLREQ k (λ i, postRequest (posts i)) nReq s = Ok s' →
  turns NUMTABLES MAXGROUPS WAIT_FOR_REQUEST ASSIGNTABLE RECVPAY
    TABLEREQ BILLREQ k s s'.
Proof.
  revert nReq s. induction k as [|k IH]; intros nReq s Hposts Hrun.
  - injection Hrun as <-. constructor.
  - cbn -[serve] in Hrun.
    destruct (serve _ _ _ _ _ _ _ _ s) as [s1|e] eqn:Hs; [|done].
    destruct Hposts as [Hfollow Hnext].
    eapply turns_S; [by econstructor|]. eapply IH; [by apply Hnext | done].
Qed.

Lemma Forall_take_groups (P : Z → Prop) (r : list Z) (nG : Z) :
  (∀ i, 0 ≤ i < nG → ∃ v, aget r i = Ok v ∧ P v) →
  Forall P (take (Z.to_nat nG) r).
Proof.
  intros Hall. apply Forall_lookup. intros j v [Hv Hj]%lookup_take_Some.
  destruct (Hall (Z.of_nat j)) as (w & [_ Hw]%aget_Ok & HP); [lia|].
  rewrite Nat2Z.id in Hw. congruence.
Qed.

Lemma count_WAIT_Forall (l : list Z) :
  Forall (λ v, v ≠ WAIT) l → count_WAIT l = 0%nat.
Proof.
  induction 1 as [|x l Hx _ IH]; [done|].
  rewrite count_WAIT_cons, IH. unfold is_WAIT. by rewrite decide_False.
Qed.

Lemma progress_Forall (l : list Z) :
  Forall (λ v, v = TOARRIVE) l → sum_list_with progress l = 0%nat.
Proof. induction 1 as [|x l -> _ IH]; [done|]. cbn. by rewrite IH. Qed.

Lemma run_invariants_turns (k : nat) (s0 s : state) :
  turns NUMTABLES MAXGROUPS WAIT_FOR_REQUEST ASSIGNTABLE RECVPAY
    TABLEREQ BILLREQ k s0 s →
  table_inv NUMTABLES s0 ∧ waiting_inv s0 ∧ record_matches s0 ∧
  signalled_once s0 →
  (table_inv NUMTABLES s ∧ waiting_inv s ∧ record_matches s ∧
   signalled_once s) ∧
  nGroups (fSt s) = nGroups (fSt s0) ∧
  length (assignedTable (fSt s)) = length (assignedTable (fSt s0)).
Proof.
  induction 1 as [|k s s1 s' Hturn _ IH]; intros (Htab & Hwait & Hmatch & Hsig);
    [done|].
  destruct (invariants_quiescent _ _ _ _ _ _ _ (turn_quiescent _ _ Hturn)
              (conj Htab Hwait)) as [Htab1 Hwait1].
  pose proof (record_matches_turn _ _ Hturn Hmatch) as Hmatch1.
  pose proof (signalled_once_turn _ _ Hturn Hsig) as Hsig1.
  pose proof (turn_sizes _ _ Hturn) as (HnG & Ha & _).
  destruct IH as (Hinv & HnG' & Ha'); [done|].
  split; [done|]. split; congruence.
Qed.

(** X14 (the end of the run).  When no group holds a table, nobody is
    counted as waiting and no group has been signalled, and all the requests
    that the groups post follow the protocol, then, when [main] leaves its
    loop, every group is recorded as [DONE], holds no table and has been
    signalled exactly once, and the counter of waiting groups is 0 again. *)
Theorem receptionist_completes (posts : nat → request) (s s' : state) :
  (∀ i, 0 ≤ i < nGroups (fSt s) → aget (assignedTable (fSt s)) i = Ok (-1)) →
  groupsWaiting (fSt s) = 0 →
  (∀ i, 0 ≤ i < nGroups (fSt s) → signals i (log s) = 0%nat) →
  (∀ r, initRecord_loop (groupRecord s) (Z.to_nat (nGroups (fSt s))) 0
          = Ok r →
     protocol_posts NUMTABLES MAXGROUPS WAIT_FOR_REQUEST ASSIGNTABLE RECVPAY
       TABLEREQ BILLREQ (Z.to_nat (nGroups (fSt s) * 2)) posts 0
       (set_groupRecord r s)) →
  receptionist NUMTABLES MAXGROUPS WAIT_FOR_REQUEST ASSIGNTABLE RECVPAY
    TABLEREQ BILLREQ (λ i, postRequest (posts i)) s = Ok s' →
  groupsWaiting (fSt s') = 0 ∧
  ∀ i, 0 ≤ i < nGroups (fSt s) →
    aget (groupRecord s') i = Ok DONE ∧
    aget (assignedTable (fSt s')) i = Ok (-1) ∧
    signals i (log s') = 1%nat.
Proof.
  intros Hfree Hw0 Hsig0 Hposts Hrun. unfold receptionist in Hrun.
  step_bind Hrun. rename a into r. step_bind Hrun.
  unfold int_mul in E0. case_decide as Hmul; [|done]. injection E0 as <-.
  specialize (Hposts r eq_refl).
  apply (proj2 (initRecord_loop_post _ _)) in E as (Hlen & Hinit & _).
  set (s1 := set_groupRecord r s) in *.
  change (nGroups (fSt s1)) with (nGroups (fSt s)) in Hrun.
  pose proof (protocol_posts_turns _ _ _ _ _ Hposts Hrun) as Hturns.
  assert (Forall (λ v, v = TOARRIVE)
            (take (Z.to_nat (nGroups (fSt s))) r)) as Hall0.
  { apply Forall_take_groups. intros i Hi. exists TOARRIVE. by split; [apply Hinit|]. }
  assert (table_inv NUMTABLES s1) as Htab.
  { intros i t Hi Hget Ht.
    change (aget (assignedTable (fSt s)) i = Ok t) in Hget.
    rewrite (Hfree i Hi) in Hget. congruence. }
  assert (waiting_inv s1) as Hwait.
  { unfold waiting_inv, waitingGroups.
    change (groupsWaiting (fSt s1)) with (groupsWaiting (fSt s)).
    change (groupRecord s1) with r.
    change (nGroups (fSt s1)) with (nGroups (fSt s)).
    rewrite Hw0, count_WAIT_Forall; [done|].
    eapply Forall_impl; [|exact Hall0]. by intros v ->. }
  assert (record_matches s1) as Hmatch.
  { intros i v t Hi Hv Ht.
    change (aget r i = Ok v) in Hv.
    change (aget (assignedTable (fSt s)) i = Ok t) in Ht.
    rewrite (Hinit i Hi) in Hv. rewrite (Hfree i Hi) in Ht.
    injection Hv as <-. injection Ht as <-. done. }
  assert (signalled_once s1) as Hsig.
  { intros i v Hi Hv. change (aget r i = Ok v) in Hv.
    rewrite (Hinit i Hi) in Hv. injection Hv as <-.
    change (log s1) with (log s). by rewrite (Hsig0 i Hi). }
  destruct (run_invariants_turns _ _ _ Hturns
              (conj Htab (conj Hwait (conj Hmatch Hsig))))
    as ((Htab' & Hwait' & Hmatch' & Hsig') & HnG & Hla).
  change (nGroups (fSt s1)) with (nGroups (fSt s)) in HnG.
  change (assignedTable (fSt s1)) with (assignedTable (fSt s)) in Hla.
  destruct (requests_served_turns _ _ _ Hturns) as [Hserved Hdone].
  assert (requests_served s1 = 0%nat) as Hserved0.
  { unfold requests_served. by apply progress_Forall. }
  assert (∀ i, 0 ≤ i < nGroups (fSt s) → aget (groupRecord s') i = Ok DONE)
    as Hall.
  { intros i Hi. apply Hdone; [|lia]. rewrite HnG. lia. }
  split.
  - rewrite Hwait'. unfold waitingGroups. rewrite count_WAIT_Forall; [done|].
    apply Forall_take_groups. intros i Hi. exists DONE.
    split; [apply Hall; lia | done].
  - intros i Hi. pose proof (Hall i Hi) as Hrec. split; [done|].
    destruct (aget_total (assignedTable (fSt s')) i) as [t Ht].
    { rewrite Hla. eapply aget_bound. by apply Hfree. }
    assert (0 ≤ i < nGroups (fSt s')) as Hi' by lia.
    split.
    + destruct (Hmatch' i DONE t Hi' Hrec Ht) as [_ Hback].
      destruct (decide (t = -1)) as [->|Hne]; [done|].
      by specialize (Hback Hne).
    + rewrite (Hsig' i DONE Hi' Hrec). by rewrite decide_True by (by right).
Qed.

End ProtocolRuns.

(** ** The run of scenario A, turn by turn *)

Lemma TABLEREQ_BILLREQ_A : (1 : Z) ≠ 2.
Proof. done. Qed.

Lemma turn_seated : turn 1 2 0 1 2 1 2 (initialState 2 2 0) state_seated.
Proof.
  apply turn_serve with (r := posts_A 0); [|reflexivity].
  split; [done|]. by left.
Qed.

Lemma turn_asked : turn 1 2 0 1 2 1 2 state_seated state_asked.
Proof.
  apply turn_serve with (r := posts_A 1); [|reflexivity].
  split; [done|]. by left.
Qed.

Lemma turn_billed : turn 1 2 0 1 2 1 2 state_asked state_billed.
Proof.
  apply turn_serve with (r := posts_A 2); [|reflexivity].
  split; [done|]. by right.
Qed.

Lemma turn_left : turn 1 2 0 1 2 1 2 state_billed state_left.
Proof.
  apply turn_serve with (r := posts_A 3); [|reflexivity].
  split; [done|]. by right.
Qed.

Lemma turns_asked : turns 1 2 0 1 2 1 2 2 (initialState 2 2 0) state_asked.
Proof.
  eapply turns_S; [exact turn_seated|].
  eapply turns_S; [exact turn_asked|]. apply turns_O.
Qed.

Lemma turns_left : turns 1 2 0 1 2 1 2 4 (initialState 2 2 0) state_left.
Proof.
  eapply turns_S; [exact turn_seated|].
  eapply turns_S; [exact turn_asked|].
  eapply turns_S; [exact turn_billed|].
  eapply turns_S; [exact turn_left|]. apply turns_O.
Qed.

Lemma reachable_asked : reachable 1 2 0 1 2 (initialState 2 2 0) state_asked.
Proof.
  eapply reachable_trans; apply turn_reachable with (TABLEREQ := 1)
    (BILLREQ := 2); [exact turn_seated | exact turn_asked].
Qed.

Lemma initialState_record_matches : record_matches (initialState 2 2 0).
Proof.
  intros i v t Hi Hv Ht. change (0 ≤ i < 2) in Hi.
  assert (i = 0 ∨ i = 1) as [-> | ->] by lia;
    injection Hv as <-; injection Ht as <-; done.
Qed.

Lemma initialState_no_idle_table : no_idle_table 1 (initialState 2 2 0).
Proof.
  intros (i & Hi & Hwait). change (0 ≤ i < 2) in Hi.
  assert (i = 0 ∨ i = 1) as [-> | ->] by lia; discriminate Hwait.
Qed.

Lemma initialState_signalled_once : signalled_once (initialState 2 2 0).
Proof.
  intros i v Hi Hv. change (0 ≤ i < 2) in Hi.
  assert (i = 0 ∨ i = 1) as [-> | ->] by lia; injection Hv as <-; done.
Qed.

Lemma initialState_well_sized : well_sized 2 (initialState 2 2 0).
Proof. by repeat split. Qed.

Lemma well_sized_reachable_witness :
  well_sized 2 (initialState 2 2 0) ∧
  reachable 1 2 0 1 2 (initialState 2 2 0) state_asked ∧
  well_sized 2 state_asked ∧
  nGroups (fSt state_asked) = nGroups (fSt (initialState 2 2 0)).
Proof.
  split; [exact initialState_well_sized|]. split; [exact reachable_asked|].
  exact (well_sized_reachable 1 2 0 1 2 _ _ initialState_well_sized
           reachable_asked).
Defined.

Lemma discipline_reachable_witness :
  discipline false (log (initialState 2 2 0)) = Some false ∧
  reachable 1 2 0 1 2 (initialState 2 2 0) state_asked ∧
  discipline false (log state_asked) = Some false.
Proof.
  split; [reflexivity|]. split; [exact reachable_asked|].
  exact (discipline_reachable 1 2 0 1 2 (initialState 2 2 0) state_asked
           eq_refl reachable_asked).
Defined.

Lemma initRecord_loop_post_witness :
  initRecord_loop [3; 1; 2] (Z.to_nat 2) 0 = Ok [0; 0; 2] ∧
  (∀ i, 0 ≤ i < 2 → aget [0; 0; 2] i = Ok TOARRIVE) ∧
  ¬ (∃ r', initRecord_loop [3; 1; 2] (Z.to_nat 4) 0 = Ok r').
Proof.
  split; [reflexivity|]. split.
  - exact (proj1 (proj2 (proj2 (initRecord_loop_post [3; 1; 2] 2) _ eq_refl))).
  - intros Hrun%(proj1 (initRecord_loop_post [3; 1; 2] 4)). done.
Defined.

Lemma provideTableOrWaitingRoom_bounds_witness :
  well_sized 2 state_asked ∧
  groupsWaiting (fSt state_asked) < INT_MAX ∧
  provideTableOrWaitingRoom 1 2 1 5 state_asked = Fault OutOfBounds.
Proof.
  assert (well_sized 2 state_asked) as Hws by (by repeat split).
  split; [exact Hws|]. split; [done|].
  apply (provideTableOrWaitingRoom_bounds 1 2 1 5 state_asked Hws);
    [done | lia].
Defined.

Lemma receptionist_takes_all_requests_witness :
  receptionist 1 2 0 1 2 1 2 (λ i, postRequest (posts_A i))
    (initialState 2 2 0) = Ok state_left ∧
  Z.of_nat (requests_taken (log state_left)) = 4.
Proof.
  assert (receptionist 1 2 0 1 2 1 2 (λ i, postRequest (posts_A i))
            (initialState 2 2 0) = Ok state_left) as Hrun by reflexivity.
  split; [exact Hrun|].
  exact (receptionist_takes_all_requests 1 2 0 1 2 1 2 posts_A _ _ Hrun).
Defined.

Lemma serve_unknown_request_witness :
  reqType (mkRequest 7 0) ≠ 1 ∧ reqType (mkRequest 7 0) ≠ 2 ∧
  ∃ s', serve 1 2 0 1 2 1 2 (postRequest (mkRequest 7 0)) state_asked
          = Ok s' ∧
    assignedTable (fSt s') = assignedTable (fSt state_asked) ∧
    groupRecord s' = groupRecord state_asked ∧
    groupsWaiting (fSt s') = groupsWaiting (fSt state_asked).
Proof.
  split; [done|]. split; [done|].
  destruct (serve_unknown_request 1 2 0 1 2 1 2 (mkRequest 7 0) state_asked
              ltac:(done) ltac:(done))
    as (s' & Hrun & Ha & Hr & Hw & _).
  by exists s'.
Defined.

Lemma tables_held_reachable_witness :
  table_inv 1 (initialState 2 2 0) ∧
  reachable 1 2 0 1 2 (initialState 2 2 0) state_asked ∧
  NoDup (tables_held state_asked) ∧
  (length (tables_held state_asked) ≤ Z.to_nat 1)%nat.
Proof.
  split; [apply table_inv_initialState|]. split; [exact reachable_asked|].
  exact (tables_held_reachable 1 2 0 1 2 _ _ (table_inv_initialState 1 2 2 0)
           reachable_asked).
Defined.

Lemma record_matches_turns_witness :
  record_matches (initialState 2 2 0) ∧
  turns 1 2 0 1 2 1 2 2 (initialState 2 2 0) state_asked ∧
  ∀ i v t, 0 ≤ i < nGroups (fSt state_asked) →
    aget (groupRecord state_asked) i = Ok v →
    aget (assignedTable (fSt state_asked)) i = Ok t →
    (v = ATTABLE ↔ t ≠ -1).
Proof.
  split; [exact initialState_record_matches|]. split; [exact turns_asked|].
  exact (record_matches_turns 1 2 0 1 2 1 2 TABLEREQ_BILLREQ_A 2 _ _
           initialState_record_matches turns_asked).
Defined.

Lemma no_idle_table_turns_witness :
  table_inv 1 (initialState 2 2 0) ∧
  record_matches (initialState 2 2 0) ∧
  no_idle_table 1 (initialState 2 2 0) ∧
  turns 1 2 0 1 2 1 2 2 (initialState 2 2 0) state_asked ∧
  (∃ i, 0 ≤ i < nGroups (fSt state_asked) ∧
        aget (groupRecord state_asked) i = Ok WAIT) ∧
  ∀ t, 0 ≤ t < 1 →
    ∃ i, 0 ≤ i < nGroups (fSt state_asked) ∧
         aget (assignedTable (fSt state_asked)) i = Ok t.
Proof.
  assert (∃ i, 0 ≤ i < nGroups (fSt state_asked) ∧
               aget (groupRecord state_asked) i = Ok WAIT) as Hwait.
  { exists 1. by split. }
  split; [apply table_inv_initialState|].
  split; [exact initialState_record_matches|].
  split; [exact initialState_no_idle_table|].
  split; [exact turns_asked|]. split; [exact Hwait|].
  exact (no_idle_table_turns 1 2 0 1 2 1 2 TABLEREQ_BILLREQ_A 2 _ _
           (table_inv_initialState 1 2 2 0) initialState_record_matches
           initialState_no_idle_table turns_asked Hwait).
Defined.

Lemma state_queued_no_idle_table : no_idle_table 1 state_queued.
Proof.
  intros _ t Ht. assert (t = 0) as -> by lia. exists 0. by split.
Qed.

Lemma vacated_table_goes_to_first_queued_witness :
  table_inv 1 state_queued ∧
  no_idle_table 1 state_queued ∧
  0 ≤ 0 < nGroups (fSt state_queued) ∧
  receivePayment_critical 1 2 0 state_queued = Ok state_vacated ∧
  decideNextGroup state_vacated = Ok 1 ∧
  receivePayment 1 2 1 2 0 state_queued = Ok state_paid ∧
  ∃ t, aget (assignedTable (fSt state_queued)) 0 = Ok t ∧
    aget (assignedTable (fSt state_paid)) 1 = Ok t.
Proof.
  split; [exact state_queued_table_inv|].
  split; [exact state_queued_no_idle_table|].
  split; [done|]. split; [reflexivity|]. split; [reflexivity|].
  split; [exact state_queued_pays|].
  destruct (vacated_table_goes_to_first_queued 1 2 1 2 0 state_queued
              state_vacated state_paid 1 state_queued_table_inv
              state_queued_no_idle_table ltac:(done) eq_refl eq_refl
              ltac:(done) state_queued_pays)
    as (t & Ht & _ & Ht' & _).
  by exists t.
Defined.

Lemma lifecycle_of_a_group_witness :
  turn 1 2 0 1 2 1 2 state_asked state_billed ∧
  aget (groupRecord state_asked) 1 = Ok WAIT ∧
  aget (groupRecord state_billed) 1 = Ok ATTABLE ∧
  (ATTABLE = WAIT ∨
   (WAIT = TOARRIVE ∧ (ATTABLE = WAIT ∨ ATTABLE = ATTABLE)) ∨
   (WAIT = WAIT ∧ ATTABLE = ATTABLE) ∨
   (WAIT = ATTABLE ∧ ATTABLE = DONE)).
Proof.
  split; [exact turn_billed|]. split; [reflexivity|]. split; [reflexivity|].
  exact (lifecycle_of_a_group 1 2 0 1 2 1 2 TABLEREQ_BILLREQ_A state_asked
           state_billed 1 WAIT ATTABLE turn_billed eq_refl eq_refl).
Defined.

Lemma DONE_is_final_witness :
  turns 1 2 0 1 2 1 2 1 state_billed state_left ∧
  aget (groupRecord state_billed) 0 = Ok DONE ∧
  aget (groupRecord state_left) 0 = Ok DONE.
Proof.
  assert (turns 1 2 0 1 2 1 2 1 state_billed state_left) as Hturns.
  { eapply turns_S; [exact turn_left | apply turns_O]. }
  split; [exact Hturns|]. split; [reflexivity|].
  exact (DONE_is_final 1 2 0 1 2 1 2 TABLEREQ_BILLREQ_A 1 state_billed
           state_left 0 Hturns eq_refl).
Defined.

Lemma signalled_once_turns_witness :
  signalled_once (initialState 2 2 0) ∧
  turns 1 2 0 1 2 1 2 4 (initialState 2 2 0) state_left ∧
  signals 0 (log state_left) = 1%nat ∧
  signals 1 (log state_left) = 1%nat.
Proof.
  split; [exact initialState_signalled_once|]. split; [exact turns_left|].
  split.
  - exact (signalled_once_turns 1 2 0 1 2 1 2 TABLEREQ_BILLREQ_A 4 _ _
             initialState_signalled_once turns_left 0 DONE ltac:(done)
             eq_refl).
  - exact (signalled_once_turns 1 2 0 1 2 1 2 TABLEREQ_BILLREQ_A 4 _ _
             initialState_signalled_once turns_left 1 DONE ltac:(done)
             eq_refl).
Defined.

Lemma requests_served_turns_witness :
  turns 1 2 0 1 2 1 2 4 (initialState 2 2 0) state_left ∧
  requests_served state_left = 4%nat ∧
  ∀ i, 0 ≤ i < nGroups (fSt state_left) →
    aget (groupRecord state_left) i = Ok DONE.
Proof.
  split; [exact turns_left|].
  destruct (requests_served_turns 1 2 0 1 2 1 2 TABLEREQ_BILLREQ_A 4 _ _
              turns_left) as [Hserved Hdone].
  split; [exact Hserved|]. apply Hdone. exact Hserved.
Defined.

Lemma posts_A_follow_protocol (r : list Z) :
  initRecord_loop (groupRecord (initialState 2 2 0))
    (Z.to_nat (nGroups (fSt (initialState 2 2 0)))) 0 = Ok r →
  protocol_posts 1 2 0 1 2 1 2
    (Z.to_nat (nGroups (fSt (initialState 2 2 0)) * 2)) posts_A 0
    (set_groupRecord r (initialState 2 2 0)).
Proof.
  intros Hr. change (Ok [0; 0] = Ok r) in Hr. injection Hr as <-.
  split; [split; [done | by left]|]. intros s1 Hs1.
  change (Ok state_seated = Ok s1) in Hs1. injection Hs1 as <-.
  split; [split; [done | by left]|]. intros s2 Hs2.
  change (Ok state_asked = Ok s2) in Hs2. injection Hs2 as <-.
  split; [split; [done | by right]|]. intros s3 Hs3.
  change (Ok state_billed = Ok s3) in Hs3. injection Hs3 as <-.
  split; [split; [done | by right]|]. intros s4 _. exact I.
Qed.

Lemma receptionist_completes_witness :
  (∀ i, 0 ≤ i < 2 →
     aget (assignedTable (fSt (initialState 2 2 0))) i = Ok (-1)) ∧
  groupsWaiting (fSt (initialState 2 2 0)) = 0 ∧
  receptionist 1 2 0 1 2 1 2 (λ i, postRequest (posts_A i))
    (initialState 2 2 0) = Ok state_left ∧
  groupsWaiting (fSt state_left) = 0 ∧
  ∀ i, 0 ≤ i < 2 →
    aget (groupRecord state_left) i = Ok DONE ∧
    aget (assignedTable (fSt state_left)) i = Ok (-1) ∧
    signals i (log state_left) = 1%nat.
Proof.
  assert (∀ i, 0 ≤ i < 2 →
            aget (assignedTable (fSt (initialState 2 2 0))) i = Ok (-1))
    as Hfree.
  { intros i Hi. assert (i = 0 ∨ i = 1) as [-> | ->] by lia; reflexivity. }
  assert (receptionist 1 2 0 1 2 1 2 (λ i, postRequest (posts_A i))
            (initialState 2 2 0) = Ok state_left) as Hrun by reflexivity.
  split; [exact Hfree|]. split; [reflexivity|]. split; [exact Hrun|].
  exact (receptionist_completes 1 2 0 1 2 1 2 TABLEREQ_BILLREQ_A posts_A
           (initialState 2 2 0) state_left Hfree eq_refl
           (λ i _, eq_refl) posts_A_follow_protocol Hrun).
Defined.

(** ** Runs of the protocol never fault *)

Section Safety.

Variables NUMTABLES MAXGROUPS : Z.
Variables WAIT_FOR_REQUEST ASSIGNTABLE RECVPAY : Z.
Variables TABLEREQ BILLREQ : Z.
Hypothesis request_types : TABLEREQ ≠ BILLREQ.

Lemma waitingGroups_bounds (s : state) :
  0 ≤ waitingGroups s ≤ Z.max 0 (nGroups (fSt s)).
Proof.
  unfold waitingGroups, count_WAIT.
  pose proof (length_filter (λ v, v = WAIT)
                (take (Z.to_nat (nGroups (fSt s))) (groupRecord s))) as Hle.
  rewrite length_take in Hle. lia.
Qed.

(** X15 (the counter stays small).  At every quiescent point of a run in
    which the requests come from groups that are not queued, the counter of
    waiting groups lies between 0 and the number of groups. *)
Theorem groupsWaiting_bounded (s0 s : state) :
  table_inv NUMTABLES s0 → waiting_inv s0 →
  quiescent NUMTABLES MAXGROUPS WAIT_FOR_REQUEST ASSIGNTABLE RECVPAY s0 s →
  0 ≤ groupsWaiting (fSt s) ≤ Z.max 0 (nGroups (fSt s)).
Proof.
  intros Htab Hwait Hq.
  destruct (invariants_quiescent _ _ _ _ _ _ _ Hq (conj Htab Hwait))
    as [_ Hinv].
  rewrite Hinv. apply waitingGroups_bounds.
Qed.

(** When [receivePayment] runs to its end. *)
Lemma receivePayment_runs (n : Z) (s : state) (t : Z) :
  well_sized MAXGROUPS s →
  INT_MIN < groupsWaiting (fSt s) < INT_MAX →
  aget (assignedTable (fSt s)) n = Ok t →
  0 ≤ t < NUMTABLES →
  ∃ s', receivePayment NUMTABLES MAXGROUPS ASSIGNTABLE RECVPAY n s = Ok s'.
Proof.
  intros (Ha & Hr & HnG) Hw Hget Ht.
  pose proof (aget_bound _ _ _ Hget) as Hn.
  destruct (receivePayment_critical_runs NUMTABLES RECVPAY n s t)
    as [s1 Hcrit]; [done | done | lia |].
  pose proof Hcrit as (t' & _ & _ & _ & HnG1 & _ & _ & Ha1 & Hr1 & Hw1 & _)
    %receivePayment_critical_inv.
  assert (Z.of_nat (length (assignedTable (fSt s1))) = MAXGROUPS) as Hla.
  { by rewrite Ha1, length_insert. }
  assert (Z.of_nat (length (groupRecord s1)) = MAXGROUPS) as Hlr.
  { by rewrite Hr1, length_insert. }
  destruct (decideNextGroup_total s1) as [g Hg]; [lia|].
  destruct (decide (g = -1)) as [->|Hne].
  { exists s1. by apply receivePayment_no_queue. }
  pose proof Hg as [[-> _]|(Hrange & _)]%decideNextGroup_sound; [done|].
  destruct (decideTableOrWait_total NUMTABLES s1 g) as [table Hd]; [lia|].
  destruct (provideTableOrWaitingRoom_runs NUMTABLES MAXGROUPS ASSIGNTABLE
              g s1 table) as [s2 Hprov];
    [done | lia | intros; lia | intros; lia |].
  eexists. eapply receivePayment_serves_queue; try done.
  apply provideTableOrWaitingRoom_inv in Hprov
    as (tb & _ & _ & _ & _ & _ & Hcase).
  destruct Hcase as [(_ & _ & _ & _ & _ & -> & _)|(_ & _ & _ & _ & -> & _)];
    lia.
Qed.

(** X16 (no fault in a turn).  In a well-sized state of a run of the
    protocol, with fewer groups than an [int] can count, a turn of the loop
    for a request that follows the protocol runs to its end: no array is
    accessed out of bounds and the counter does not overflow. *)
Theorem protocol_turn_runs (r : request) (s : state) :
  well_sized MAXGROUPS s → MAXGROUPS < INT_MAX →
  table_inv NUMTABLES s → waiting_inv s → record_matches s →
  follows_protocol TABLEREQ BILLREQ s r →
  ∃ s', serve NUMTABLES MAXGROUPS WAIT_FOR_REQUEST ASSIGNTABLE RECVPAY
          TABLEREQ BILLREQ (postRequest r) s = Ok s'.
Proof.
  intros Hws Hmax Htab Hwait Hmatch [Hn Hcase].
  destruct r as [ty n]. cbn in Hn, Hcase.
  pose proof (waitingGroups_bounds s) as Hb. rewrite <- Hwait in Hb.
  pose proof Hws as (Ha & Hr & HnG).
  set (s1 := (waitForGroup WAIT_FOR_REQUEST (postRequest (mkRequest ty n))
                s).2).
  assert (well_sized MAXGROUPS s1) as Hws1 by exact Hws.
  assert (groupsWaiting (fSt s1) = groupsWaiting (fSt s)) as Hw1
    by reflexivity.
  assert (0 ≤ MAXGROUPS) as Hpos by lia.
  destruct Hcase as [[-> Hrec]|[-> Hrec]].
  - rewrite serve_TABLEREQ. fold s1.
    destruct (decideTableOrWait_total NUMTABLES s1 n) as [table Hd].
    { change (nGroups (fSt s) ≤
              Z.of_nat (length (assignedTable (fSt s)))). lia. }
    eapply provideTableOrWaitingRoom_runs; [exact Hd | | |].
    + change (0 ≤ n < Z.of_nat (length (groupRecord s))). lia.
    + intros _.
      change (0 ≤ n < Z.of_nat (length (assignedTable (fSt s))) ∧
              0 ≤ n < MAXGROUPS). lia.
    + intros _. rewrite Hw1. lia.
  - rewrite serve_BILLREQ by done. fold s1.
    destruct (aget_total (assignedTable (fSt s)) n) as [t Ht]; [lia|].
    assert (t ≠ -1) as Hheld.
    { by apply (Hmatch n ATTABLE t Hn Hrec Ht). }
    destruct (Htab n t Hn Ht Hheld) as [Hrange _].
    eapply (receivePayment_runs n s1 t); [done | | exact Ht | done].
    rewrite Hw1. unfold INT_MIN. lia.
Qed.

End Safety.

Lemma groupsWaiting_bounded_witness :
  table_inv 1 state_queued ∧ waiting_inv state_queued ∧
  quiescent 1 2 0 1 2 state_queued state_paid ∧
  0 ≤ groupsWaiting (fSt state_paid) ≤ Z.max 0 (nGroups (fSt state_paid)).
Proof.
  assert (quiescent 1 2 0 1 2 state_queued state_paid) as Hq.
  { eapply quiescent_step; [apply quiescent_start|].
    eapply served_receivePayment; [|exact state_queued_pays].
    split; [done | discriminate]. }
  split; [exact state_queued_table_inv|].
  split; [exact state_queued_waiting_inv|]. split; [exact Hq|].
  exact (groupsWaiting_bounded 1 2 0 1 2 state_queued state_paid
           state_queued_table_inv state_queued_waiting_inv Hq).
Defined.

Lemma state_queued_record_matches : record_matches state_queued.
Proof.
  intros i v t Hi Hv Ht. change (0 ≤ i < 2) in Hi.
  assert (i = 0 ∨ i = 1) as [-> | ->] by lia;
    injection Hv as <-; injection Ht as <-; done.
Qed.

Lemma protocol_turn_runs_witness :
  well_sized 2 state_queued ∧ 2 < INT_MAX ∧
  table_inv 1 state_queued ∧ waiting_inv state_queued ∧
  record_matches state_queued ∧
  follows_protocol 1 2 state_queued (mkRequest 2 0) ∧
  ∃ s', serve 1 2 0 1 2 1 2 (postRequest (mkRequest 2 0)) state_queued
          = Ok s'.
Proof.
  assert (follows_protocol 1 2 state_queued (mkRequest 2 0)) as Hfollow.
  { split; [done|]. by right. }
  split; [exact state_queued_well_sized|]. split; [done|].
  split; [exact state_queued_table_inv|].
  split; [exact state_queued_waiting_inv|].
  split; [exact state_queued_record_matches|]. split; [exact Hfollow|].
  exact (protocol_turn_runs 1 2 0 1 2 1 2 TABLEREQ_BILLREQ_A (mkRequest 2 0)
           state_queued state_queued_well_sized ltac:(done)
           state_queued_table_inv state_queued_waiting_inv
           state_queued_record_matches Hfollow).
Defined.

(** ** [main] runs to its end *)

Section Termination.

Variables NUMTABLES MAXGROUPS : Z.
Variables WAIT_FOR_REQUEST ASSIGNTABLE RECVPAY : Z.
Variables TABLEREQ BILLREQ : Z.
Hypothesis request_types : TABLEREQ ≠ BILLREQ.

Lemma lifeCycle_loop_runs (posts : nat → request) (k nReq : nat)
    (s : state) :
  well_sized MAXGROUPS s → MAXGROUPS < INT_MAX →
  table_inv NUMTABLES s → waiting_inv s → record_matches s →
  protocol_posts NUMTABLES MAXGROUPS WAIT_FOR_REQUEST ASSIGNTABLE RECVPAY
    TABLEREQ BILLREQ k posts nReq s →
  ∃ s', lifeCycle_loop NUMTABLES MAXGROUPS WAIT_FOR_REQUEST ASSIGNTABLE
          RECVPAY TABLEREQ BILLREQ k (λ i, postRequest (posts i)) nReq s
        = Ok s'.
Proof.
  revert nReq s. induction k as [|k IH];
    intros nReq s Hws Hmax Htab Hwait Hmatch Hposts; [by eexists|].
  destruct Hposts as [Hfollow Hnext].
  destruct (protocol_turn_runs NUMTABLES MAXGROUPS WAIT_FOR_REQUEST
              ASSIGNTABLE RECVPAY TABLEREQ BILLREQ request_types
              (posts nReq) s Hws Hmax Htab Hwait Hmatch Hfollow)
    as [s1 Hs1].
  cbn -[serve]. rewrite Hs1. cbn -[serve].
  assert (turn NUMTABLES MAXGROUPS WAIT_FOR_REQUEST ASSIGNTABLE RECVPAY
            TABLEREQ BILLREQ s s1) as Hturn by (by econstructor).
  destruct (invariants_quiescent _ _ _ _ _ _ _
              (turn_quiescent _ _ _ _ _ _ _ request_types _ _ Hturn)
              (conj Htab Hwait)) as [Htab1 Hwait1].
  pose proof (record_matches_turn _ _ _ _ _ _ _ request_types _ _ Hturn
                Hmatch) as Hmatch1.
  pose proof (turn_sizes _ _ _ _ _ _ _ _ _ Hturn) as (HnG & Ha & Hr).
  apply IH; try done.
  - destruct Hws as (Hwa & Hwr & Hwn). unfold well_sized.
    by rewrite Ha, Hr, HnG.
  - by apply Hnext.
Qed.

(** X17 ([main] runs to its end).  In a well-sized state with at most
    [INT_MAX / 2] groups, where no group holds a table and nobody is counted
    as waiting, [main] runs to the end of its loop whenever the requests
    that the groups post follow the protocol. *)
Theorem receptionist_runs (posts : nat → request) (s : state) :
  well_sized MAXGROUPS s →
  0 ≤ nGroups (fSt s) → MAXGROUPS * 2 ≤ INT_MAX →
  (∀ i, 0 ≤ i < nGroups (fSt s) → aget (assignedTable (fSt s)) i = Ok (-1)) →
  groupsWaiting (fSt s) = 0 →
  (∀ r, initRecord_loop (groupRecord s) (Z.to_nat (nGroups (fSt s))) 0
          = Ok r →
     protocol_posts NUMTABLES MAXGROUPS WAIT_FOR_REQUEST ASSIGNTABLE RECVPAY
       TABLEREQ BILLREQ (Z.to_nat (nGroups (fSt s) * 2)) posts 0
       (set_groupRecord r s)) →
  ∃ s', receptionist NUMTABLES MAXGROUPS WAIT_FOR_REQUEST ASSIGNTABLE RECVPAY
          TABLEREQ BILLREQ (λ i, postRequest (posts i)) s = Ok s'.
Proof.
  intros (Ha & Hr & HnG) Hpos Hmax Hfree Hw0 Hposts.
  destruct (proj2 (proj1 (initRecord_loop_post (groupRecord s)
                            (nGroups (fSt s))))) as [r Hinit]; [lia|].
  specialize (Hposts r Hinit).
  pose proof (proj2 (initRecord_loop_post _ _) r Hinit) as (Hlen & Hall & _).
  unfold receptionist. rewrite Hinit. cbn -[lifeCycle_loop].
  unfold int_mul. rewrite decide_True by (unfold INT_MIN, INT_MAX in *; lia).
  cbn -[lifeCycle_loop].
  set (s1 := set_groupRecord r s) in *.
  apply lifeCycle_loop_runs; try done.
  - unfold well_sized. change (groupRecord s1) with r. by rewrite Hlen.
  - unfold INT_MAX in *. lia.
  - intros i t Hi Hget Ht.
    change (aget (assignedTable (fSt s)) i = Ok t) in Hget.
    rewrite (Hfree i Hi) in Hget. congruence.
  - unfold waiting_inv, waitingGroups.
    change (groupsWaiting (fSt s1)) with (groupsWaiting (fSt s)).
    change (groupRecord s1) with r.
    change (nGroups (fSt s1)) with (nGroups (fSt s)).
    rewrite Hw0, count_WAIT_Forall; [done|].
    apply Forall_take_groups. intros i Hi. exists TOARRIVE.
    by split; [apply Hall|].
  - intros i v t Hi Hv Ht.
    change (aget r i = Ok v) in Hv.
    change (aget (assignedTable (fSt s)) i = Ok t) in Ht.
    rewrite (Hall i Hi) in Hv. rewrite (Hfree i Hi) in Ht.
    injection Hv as <-. injection Ht as <-. done.
Qed.

End Termination.

Lemma receptionist_runs_witness :
  well_sized 2 (initialState 2 2 0) ∧
  0 ≤ nGroups (fSt (initialState 2 2 0)) ∧
  2 * 2 ≤ INT_MAX ∧
  groupsWaiting (fSt (initialState 2 2 0)) = 0 ∧
  ∃ s', receptionist 1 2 0 1 2 1 2 (λ i, postRequest (posts_A i))
          (initialState 2 2 0) = Ok s'.
Proof.
  assert (∀ i, 0 ≤ i < 2 →
            aget (assignedTable (fSt (initialState 2 2 0))) i = Ok (-1))
    as Hfree.
  { intros i Hi. assert (i = 0 ∨ i = 1) as [-> | ->] by lia; reflexivity. }
  split; [exact initialState_well_sized|]. split; [done|]. split; [done|].
  split; [reflexivity|].
  exact (receptionist_runs 1 2 0 1 2 1 2 TABLEREQ_BILLREQ_A posts_A
           (initialState 2 2 0) initialState_well_sized ltac:(done)
           ltac:(done) Hfree eq_refl posts_A_follow_protocol).
Defined.
